(** * just-a-stream: a shallow embedding of the JAStream class

    The repository ships three revisions of the same class:

    - [src/index.js]            the compiled build (no buffer at all),
    - [src/src/index.ts]        the build with the BETA buffer and
                                [withLatestFrom],
    - [src/unnamed/part_002]    the build with [JAStreamOptions]
                                ([useBuffer], [bufferSize]).

    The methods [filter], [map], [reduce] and the static [from] read the
    same in all three; [subscribe], [getBuffer], [merge] and
    [withLatestFrom] are embedded once per revision, in the modules
    [Options], [Beta] and [Dist] below.

    Conventions of the embedding:

    - a method is a computation over a store ([World]) that may throw;
      closures are functions of the store, so a producer runs to the end
      when it is called (timers and DOM events are outside the model);
    - a stream object is a handle ([JAStream]) with its identity; the
      fields written on emission ([last], [buffer]) live in the store
      under that identity, so that two handles of one object alias;
    - arrays are lists (no holes), [bufferSize] is an integer, and the
      predicate, mapper and reducer are pure functions. *)

From Stdlib Require Import ZArith Lia.
From stdpp Require Import gmap strings list.

Local Open Scope Z_scope.

(** ** Values and the store *)

(** JavaScript values that flow through a stream. *)
#[warnings="-register-all"]
Inductive Value : Type :=
  | VUndefined
  | VNum (n : Z)
  | VStr (s : string)
  | VArr (items : list Value).

(** The mutable instance fields [last] and [buffer] of one JAStream
    object.  An array is represented by its contents. *)
Record Fields : Type := mkFields {
  last : Value;
  buffer : list Value
}.

(** Field initialisers of the class: [last = undefined], [buffer = []]. *)
Definition fresh_fields : Fields := mkFields VUndefined [].

(** The store: the instance fields of every allocated stream, the
    [let] variables captured by producer closures ([acc], [latest]) and the
    arguments a mock listener has been called with. *)
Record World : Type := mkWorld {
  objects : gmap nat Fields;
  next_object : nat;
  cells : gmap nat Value;
  next_cell : nat;
  calls : list Value
}.

Definition empty_world : World := mkWorld ∅ 0%nat ∅ 0%nat [].

(** ** Computations: state passing with exceptions *)

Inductive Outcome (A : Type) : Type :=
  | Returned (a : A)
  | Thrown (message : string).
Arguments Returned {A} a.
Arguments Thrown {A} message.

Definition M (A : Type) : Type := World -> Outcome A * World.

Definition ret {A} (a : A) : M A := fun w => (Returned a, w).

Definition bind {A B} (m : M A) (k : A -> M B) : M B :=
  fun w =>
    match m w with
    | (Returned a, w') => k a w'
    | (Thrown e, w') => (Thrown e, w')
    end.

Definition throw {A} (message : string) : M A := fun w => (Thrown message, w).

Notation "x <- m ;; k" := (bind m (fun x => k))
  (at level 100, m at next level, right associativity).
Notation "m ;;; k" := (bind m (fun _ => k))
  (at level 100, right associativity).

(** [xs.forEach(f)] *)
Fixpoint forEach {A} (xs : list A) (f : A -> M unit) : M unit :=
  match xs with
  | [] => ret tt
  | x :: rest => f x ;;; forEach rest f
  end.

(** ** Types of the source *)

Definition Listener : Type := Value -> M unit.
Definition DataGenerator : Type := Listener -> M unit.
Definition Predicate : Type := Value -> bool.
Definition Mapper : Type := Value -> Value.
Definition Reducer : Type := Value -> Value -> Value.

Record JAStreamOptions : Type := mkOptions {
  opt_useBuffer : bool;
  opt_bufferSize : Z
}.

(** A stream object: its identity in the store and the fields that are
    assigned in the constructor only. *)
Record JAStream : Type := mkJAStream {
  self : nat;
  generator : DataGenerator;
  useBuffer : bool;
  bufferSize : Z
}.

(** ** Field access *)

Definition fields_of (w : World) (this : JAStream) : Fields :=
  default fresh_fields (objects w !! self this).

Definition set_fields (this : JAStream) (f : Fields) (w : World) : World :=
  mkWorld (<[self this := f]> (objects w)) (next_object w)
          (cells w) (next_cell w) (calls w).

Definition read_last (this : JAStream) : M Value :=
  fun w => (Returned (last (fields_of w this)), w).

Definition write_last (this : JAStream) (x : Value) : M unit :=
  fun w => (Returned tt,
            set_fields this (mkFields x (buffer (fields_of w this))) w).

Definition read_buffer (this : JAStream) : M (list Value) :=
  fun w => (Returned (buffer (fields_of w this)), w).

Definition write_buffer (this : JAStream) (b : list Value) : M unit :=
  fun w => (Returned tt,
            set_fields this (mkFields (last (fields_of w this)) b) w).

(** [this.buffer.push(x)] *)
Definition push_buffer (this : JAStream) (x : Value) : M unit :=
  b <- read_buffer this ;; write_buffer this (b ++ [x]).

(** ** Closure variables *)

Definition new_cell (v : Value) : M nat :=
  fun w => (Returned (next_cell w),
            mkWorld (objects w) (next_object w)
                    (<[next_cell w := v]> (cells w)) (S (next_cell w))
                    (calls w)).

Definition read_cell (c : nat) : M Value :=
  fun w => (Returned (default VUndefined (cells w !! c)), w).

Definition write_cell (c : nat) (v : Value) : M unit :=
  fun w => (Returned tt,
            mkWorld (objects w) (next_object w)
                    (<[c := v]> (cells w)) (next_cell w) (calls w)).

(** ** Array.prototype.slice on integer arguments *)

(** Relative index resolution of ECMAScript: a negative index counts from
    the end, and the result is clamped to [0, len]. *)
Definition relative_index (i len : Z) : Z :=
  if i <? 0 then Z.max (len + i) 0 else Z.min i len.

Definition slice {A} (l : list A) (start : Z) (stop : option Z) : list A :=
  let len := Z.of_nat (length l) in
  let k := relative_index start len in
  let final := match stop with
               | None => len
               | Some e => relative_index e len
               end in
  take (Z.to_nat (Z.max (final - k) 0)) (drop (Z.to_nat k) l).

(** ** The constructor *)

(** [new JAStream(generator, options?)].  The revisions without options
    are the case [None]. *)
Definition new_JAStream (generator : DataGenerator)
    (options : option JAStreamOptions) : M JAStream :=
  fun w =>
    let this :=
      mkJAStream (next_object w) generator
        (match options with Some o => opt_useBuffer o | None => false end)
        (match options with Some o => opt_bufferSize o | None => 1 end) in
    (Returned this,
     mkWorld (<[next_object w := fresh_fields]> (objects w))
             (S (next_object w)) (cells w) (next_cell w) (calls w)).

(** ** Operators shared by the three revisions *)

Module Op.

Definition filter (this : JAStream) (pred : Predicate) : M JAStream :=
  new_JAStream (fun next =>
    generator this (fun x =>
      if pred x then next x else ret tt)) None.

Definition map (this : JAStream) (mapFn : Mapper) : M JAStream :=
  new_JAStream (fun next =>
    generator this (fun x =>
      next (mapFn x))) None.

Definition reduce (this : JAStream) (fn : Reducer) (initialValue : Value)
    : M JAStream :=
  new_JAStream (fun next =>
    acc <- new_cell initialValue ;;
    generator this (fun x =>
      a <- read_cell acc ;;
      write_cell acc (fn a x) ;;;
      a' <- read_cell acc ;;
      next a')) None.

Definition from (xs : list Value) : M JAStream :=
  new_JAStream (fun next =>
    forEach xs (fun x => next x)) None.

End Op.

(** ** [src/unnamed/part_002]: the revision with [JAStreamOptions] *)

Module Options.

(** The callback [subscribe] hands to the generator. *)
Definition emission (this : JAStream) (listener : Listener) : Listener :=
  fun x =>
    write_last this x ;;;
    (if useBuffer this then
       push_buffer this x ;;;
       b <- read_buffer this ;;
       write_buffer this (slice b (bufferSize this * -1) None)
     else ret tt) ;;;
    listener x.

Definition subscribe (this : JAStream) (listener : Listener) : M unit :=
  generator this (emission this listener).

(** What one emission does to the instance fields, as a function. *)
Definition track (this : JAStream) (f : Fields) (x : Value) : Fields :=
  mkFields x
    (if useBuffer this
     then slice (buffer f ++ [x]) (bufferSize this * -1) None
     else buffer f).

Definition getLast (this : JAStream) : M Value := read_last this.

Definition getBuffer (this : JAStream) : M (list Value) :=
  if useBuffer this then read_buffer this
  else throw "In order to use buffer you must specify it on the JAStreamOptions as useBuffer=boolean and bufferSize=number".

Definition merge (streams : list JAStream) : M JAStream :=
  new_JAStream (fun next =>
    forEach streams (fun stream =>
      subscribe stream next)) None.

End Options.

(** ** [src/src/index.ts]: the revision with the BETA buffer *)

Module Beta.

Definition emission (this : JAStream) (listener : Listener) : Listener :=
  fun x =>
    write_last this x ;;;
    push_buffer this x ;;;
    (b <- read_buffer this ;;
     write_buffer this (slice b 0 (Some 10))) ;;;
    listener x.

Definition subscribe (this : JAStream) (listener : Listener) : M unit :=
  generator this (emission this listener).

Definition track (this : JAStream) (f : Fields) (x : Value) : Fields :=
  mkFields x (slice (buffer f ++ [x]) 0 (Some 10)).

Definition withLatestFrom (this otherStream : JAStream) : M JAStream :=
  new_JAStream (fun next =>
    latest <- new_cell VUndefined ;;
    subscribe otherStream (fun x => write_cell latest x) ;;;
    generator this (fun y =>
      l <- read_last this ;;
      o <- read_cell latest ;;
      next (VArr [l; o]))) None.

Definition getLast (this : JAStream) : M Value := read_last this.

Definition getBuffer (this : JAStream) : M (list Value) := read_buffer this.

Definition merge (streams : list JAStream) : M JAStream :=
  new_JAStream (fun next =>
    forEach streams (fun stream =>
      subscribe stream next)) None.

End Beta.

(** ** [src/index.js]: the compiled revision, without a buffer *)

Module Dist.

Definition emission (this : JAStream) (listener : Listener) : Listener :=
  fun x =>
    write_last this x ;;;
    listener x.

Definition subscribe (this : JAStream) (listener : Listener) : M unit :=
  generator this (emission this listener).

Definition track (this : JAStream) (f : Fields) (x : Value) : Fields :=
  mkFields x (buffer f).

Definition withLatestFrom (this otherStream : JAStream) : M JAStream :=
  new_JAStream (fun next =>
    latest <- new_cell VUndefined ;;
    subscribe otherStream (fun x => write_cell latest x) ;;;
    generator this (fun y =>
      l <- read_last this ;;
      o <- read_cell latest ;;
      next (VArr [l; o]))) None.

Definition getLast (this : JAStream) : M Value := read_last this.

Definition merge (streams : list JAStream) : M JAStream :=
  new_JAStream (fun next =>
    forEach streams (fun stream =>
      subscribe stream next)) None.

End Dist.

(** ** Test doubles *)

(** [jest.fn()]: a listener that records the argument of every call. *)
Definition mockListener : Listener :=
  fun x w =>
    (Returned tt,
     mkWorld (objects w) (next_object w) (cells w) (next_cell w)
             (calls w ++ [x])).

(** A listener that looks at the stream it is subscribed to, as in the
    README example [console.log(event, ' - ', stream.getBuffer())]: every
    call records the event, [getLast()] and [getBuffer()]. *)
Definition spy (stream : JAStream) : Listener :=
  fun x =>
    l <- Options.getLast stream ;;
    b <- Options.getBuffer stream ;;
    mockListener (VArr [x; l; VArr b]).

(** The running folds of [fn] over [xs] from the seed [acc]; the seed is
    not part of the result. *)
Fixpoint scan (fn : Reducer) (acc : Value) (xs : list Value) : list Value :=
  match xs with
  | [] => []
  | x :: rest => fn acc x :: scan fn (fn acc x) rest
  end.

(** Running a computation for its final store, or for its result. *)
Definition exec {A} (m : M A) (w : World) : World := snd (m w).
Definition eval {A} (m : M A) (w : World) : Outcome A := fst (m w).

(** ** Vocabulary of the statements *)

(** The three revisions of the class. *)
Inductive Revision : Type := DistJs | BetaTs | OptionsTs.

Definition emission_of (r : Revision) : JAStream -> Listener -> Listener :=
  match r with
  | DistJs => Dist.emission
  | BetaTs => Beta.emission
  | OptionsTs => Options.emission
  end.

Definition subscribe_of (r : Revision) : JAStream -> Listener -> M unit :=
  match r with
  | DistJs => Dist.subscribe
  | BetaTs => Beta.subscribe
  | OptionsTs => Options.subscribe
  end.

Definition merge_of (r : Revision) : list JAStream -> M JAStream :=
  match r with
  | DistJs => Dist.merge
  | BetaTs => Beta.merge
  | OptionsTs => Options.merge
  end.

Definition track_of (r : Revision) : JAStream -> Fields -> Value -> Fields :=
  match r with
  | DistJs => Dist.track
  | BetaTs => Beta.track
  | OptionsTs => Options.track
  end.

Definition getLast_of (r : Revision) : JAStream -> M Value :=
  match r with
  | DistJs => Dist.getLast
  | BetaTs => Beta.getLast
  | OptionsTs => Options.getLast
  end.

(** [withLatestFrom] exists in [src/index.js] and [src/src/index.ts]; the
    class of the revision with options has no such method, and calling it
    there is a TypeError. *)
Definition withLatestFrom_of (r : Revision)
    : JAStream -> JAStream -> M JAStream :=
  match r with
  | DistJs => Dist.withLatestFrom
  | BetaTs => Beta.withLatestFrom
  | OptionsTs => fun _ _ => throw "withLatestFrom is not a function"
  end.

(** A producer that emits synchronously and exhaustively: called with any
    callback, it calls it once per element of [xs], in order, and
    returns. *)
Definition emits (g : DataGenerator) (xs : list Value) : Prop :=
  forall next w, g next w = forEach xs next w.

(** A callback that returns normally, is recorded by the mock with the
    argument it was given, and writes to no stream object outside [ids]. *)
Definition touches (ids : list nat) (k : Listener) : Prop :=
  forall x w, exists w',
    k x w = (Returned tt, w') /\
    calls w' = calls w ++ [x] /\
    cells w' = cells w /\
    next_cell w' = next_cell w /\
    next_object w' = next_object w /\
    forall i, i ∉ ids -> objects w' !! i = objects w !! i.

(** The last [k] elements of a list. *)
Definition lastn {A} (k : nat) (l : list A) : list A :=
  drop (length l - k)%nat l.

(** [xs[xs.length - 1]], [undefined] on the empty array. *)
Definition final (xs : list Value) : Value := List.last xs VUndefined.

Definition nums (l : list Z) : list Value := List.map VNum l.

(** ** Streams of the examples

    [numbers] and [letters] are the objects that [from([1, 2])] and
    [from(['a', 'b'])] return when called in that order in the empty
    store; [buffered] is a stream with [{useBuffer: true, bufferSize: 3}]
    over the values of the README example, [unbounded] the same with a
    [bufferSize] of zero. *)

Definition numbers : JAStream :=
  mkJAStream 0 (fun next => forEach (nums [1; 2]) (fun x => next x)) false 1.

Definition letters : JAStream :=
  mkJAStream 1 (fun next => forEach [VStr "a"; VStr "b"] (fun x => next x))
             false 1.

Definition two_streams : World :=
  exec (Op.from (nums [1; 2]) ;;; Op.from [VStr "a"; VStr "b"]) empty_world.

Definition buffered : JAStream :=
  mkJAStream 0 (fun next => forEach (nums [2; 4; 1; 5; 5]) next) true 3.

Definition one_stream : World :=
  exec (new_JAStream (generator buffered) (Some (mkOptions true 3)))
       empty_world.

Definition three_values : DataGenerator :=
  fun next => forEach (nums [1; 2; 3]) next.

(** ** Further test doubles *)

(** A listener that throws [message] when it is called with a value that
    satisfies [bad], and records the value otherwise. *)
Definition failing_on (bad : Value -> bool) (message : string) : Listener :=
  fun x => if bad x then throw message else mockListener x.

(** A callback that behaves like a recording one on the values that do
    not satisfy [bad], throws [message] without recording on the others,
    and in both cases writes to no stream object outside [ids]. *)
Definition fails_on (bad : Value -> bool) (message : string)
    (ids : list nat) (k : Listener) : Prop :=
  forall x w, exists w',
    k x w = (if bad x then Thrown message else Returned tt, w') /\
    calls w' = (if bad x then calls w else calls w ++ [x]) /\
    forall i, i ∉ ids -> objects w' !! i = objects w !! i.

Definition is_two (v : Value) : bool :=
  match v with VNum 2 => true | _ => false end.

Definition is_odd (v : Value) : bool :=
  match v with VNum n => Z.odd n | _ => false end.

Definition double (v : Value) : Value :=
  match v with VNum n => VNum (2 * n) | _ => VUndefined end.

Definition add (acc x : Value) : Value :=
  match acc, x with VNum a, VNum b => VNum (a + b) | _, _ => VUndefined end.

(** The stream that [from([1, 2, 3])] returns in the empty store, and the
    store after that call. *)
Definition three_stream : JAStream :=
  mkJAStream 0 (fun next => forEach (nums [1; 2; 3]) (fun x => next x))
             false 1.

Definition three_world : World := exec (Op.from (nums [1; 2; 3])) empty_world.

(** The stream that [from([1, ..., 15])] returns in the empty store, and
    the store after that call. *)
Definition fifteen_stream : JAStream :=
  mkJAStream 0
    (fun next =>
       forEach (nums [1;2;3;4;5;6;7;8;9;10;11;12;13;14;15]) (fun x => next x))
    false 1.

Definition fifteen_world : World :=
  exec (Op.from (nums [1;2;3;4;5;6;7;8;9;10;11;12;13;14;15])) empty_world.

(** A stream constructed with [{useBuffer: true, bufferSize: 1}] over
    1, 2, 3, and the store right after its construction. *)
Definition single : JAStream := mkJAStream 0 three_values true 1.

Definition single_world : World :=
  exec (new_JAStream three_values (Some (mkOptions true 1))) empty_world.

(** A stream constructed with [{useBuffer: true, bufferSize: -1}], and the
    store right after its construction. *)
Definition negative : JAStream := mkJAStream 0 three_values true (-1).

Definition negative_world : World :=
  exec (new_JAStream three_values (Some (mkOptions true (-1)))) empty_world.

(** * Properties *)

(** Membership in the identity lists of the frame conditions. *)

Lemma not_in_head (i a : nat) (l ids : list nat) :
  i ∉ (a :: l) ++ ids -> i ∉ a :: ids.
Proof. simpl. rewrite !elem_of_cons, elem_of_app. tauto. Qed.

Lemma not_in_tail (i a : nat) (l ids : list nat) :
  i ∉ (a :: l) ++ ids -> i ∉ l ++ ids.
Proof. simpl. rewrite elem_of_cons. tauto. Qed.

Lemma not_in_app (i : nat) (l ids : list nat) :
  i ∉ l -> i ∉ ids -> i ∉ l ++ ids.
Proof. rewrite elem_of_app. tauto. Qed.

(** ** The store *)

Lemma fields_of_set_fields (s : JAStream) (f : Fields) (w : World) :
  fields_of (set_fields s f w) s = f.
Proof. unfold fields_of, set_fields; simpl. by rewrite lookup_insert_eq. Qed.

Lemma set_fields_twice (s : JAStream) (f g : Fields) (w : World) :
  set_fields s g (set_fields s f w) = set_fields s g w.
Proof. unfold set_fields; simpl. by rewrite insert_insert_eq. Qed.

Lemma objects_set_fields_ne (s : JAStream) (f : Fields) (w : World) (i : nat) :
  i ≠ self s -> objects (set_fields s f w) !! i = objects w !! i.
Proof. intros Hne. unfold set_fields; simpl. by rewrite lookup_insert_ne. Qed.

Lemma fields_of_agree (s : JAStream) (w w' : World) :
  objects w' !! self s = objects w !! self s -> fields_of w' s = fields_of w s.
Proof. unfold fields_of. by intros ->. Qed.

(** ** One emission, per revision

    In every revision the callback handed to the generator first rewrites
    the fields of [this] and only then calls the listener. *)

Lemma Options_emission_run (s : JAStream) (l : Listener) (x : Value) (w : World) :
  Options.emission s l x w
  = l x (set_fields s (Options.track s (fields_of w s) x) w).
Proof.
  unfold Options.emission, Options.track, push_buffer, bind, write_last,
    read_buffer, write_buffer, ret.
  destruct (useBuffer s); simpl;
    rewrite ?fields_of_set_fields, ?set_fields_twice; reflexivity.
Qed.

Lemma Beta_emission_run (s : JAStream) (l : Listener) (x : Value) (w : World) :
  Beta.emission s l x w
  = l x (set_fields s (Beta.track s (fields_of w s) x) w).
Proof.
  unfold Beta.emission, Beta.track, push_buffer, bind, write_last,
    read_buffer, write_buffer; simpl.
  rewrite ?fields_of_set_fields, ?set_fields_twice; reflexivity.
Qed.

Lemma Dist_emission_run (s : JAStream) (l : Listener) (x : Value) (w : World) :
  Dist.emission s l x w
  = l x (set_fields s (Dist.track s (fields_of w s) x) w).
Proof. reflexivity. Qed.

Lemma emission_of_run (r : Revision) (s : JAStream) (l : Listener)
    (x : Value) (w : World) :
  emission_of r s l x w
  = l x (set_fields s (track_of r s (fields_of w s) x) w).
Proof.
  destruct r; simpl;
    [apply Dist_emission_run | apply Beta_emission_run
     | apply Options_emission_run].
Qed.

Lemma subscribe_of_unfold (r : Revision) (s : JAStream) (l : Listener) :
  subscribe_of r s l = generator s (emission_of r s l).
Proof. by destruct r. Qed.

Lemma track_of_last (r : Revision) (s : JAStream) (f : Fields) (x : Value) :
  last (track_of r s f x) = x.
Proof. by destruct r. Qed.

(** ** Callbacks that only record *)

Lemma touches_mockListener : touches [] mockListener.
Proof. intros x w. eexists; repeat split; reflexivity. Qed.

Lemma touches_emission (r : Revision) (s : JAStream) (ids : list nat)
    (k : Listener) :
  touches ids k -> touches (self s :: ids) (emission_of r s k).
Proof.
  intros Hk x w. rewrite emission_of_run.
  destruct (Hk x (set_fields s (track_of r s (fields_of w s) x) w))
    as (w' & Hrun & Hcalls & Hcells & Hnc & Hno & Hfr).
  exists w'. repeat split; try done.
  intros i Hi. rewrite Hfr by set_solver.
  apply objects_set_fields_ne. set_solver.
Qed.

(** After one emission whose listener stays away from [s], the fields of
    [s] are the tracked ones. *)
Lemma emission_fields (r : Revision) (s : JAStream) (ids : list nat)
    (k : Listener) (x : Value) (w : World) :
  touches ids k -> self s ∉ ids ->
  fields_of (exec (emission_of r s k x) w) s
  = track_of r s (fields_of w s) x.
Proof.
  intros Hk Hs. unfold exec. rewrite emission_of_run.
  destruct (Hk x (set_fields s (track_of r s (fields_of w s) x) w))
    as (w' & Hrun & _ & _ & _ & _ & Hfr).
  rewrite Hrun; simpl.
  rewrite (fields_of_agree s _ w' (Hfr _ Hs)).
  apply fields_of_set_fields.
Qed.

(** ** [forEach] *)

(** A recording callback run over [xs] records [xs]. *)
Lemma forEach_touches (ids : list nat) (k : Listener) (xs : list Value) :
  touches ids k ->
  forall w, exists w',
    forEach xs k w = (Returned tt, w') /\
    calls w' = calls w ++ xs /\
    cells w' = cells w /\
    next_cell w' = next_cell w /\
    next_object w' = next_object w /\
    forall i, i ∉ ids -> objects w' !! i = objects w !! i.
Proof.
  intros Hk. induction xs as [|x xs IH]; intros w; simpl.
  - exists w. rewrite app_nil_r. repeat split; reflexivity.
  - destruct (Hk x w) as (w1 & Hrun & Hc & Hce & Hnc & Hno & Hfr).
    destruct (IH w1) as (w2 & Hrun2 & Hc2 & Hce2 & Hnc2 & Hno2 & Hfr2).
    exists w2. unfold bind. rewrite Hrun, Hrun2.
    repeat split; try congruence.
    + rewrite Hc2, Hc, <- app_assoc. reflexivity.
    + intros i Hi. rewrite Hfr2, Hfr; auto.
Qed.

(** The fields of [s] after a run of emissions are the fold of [track]. *)
Lemma forEach_emission_fields (r : Revision) (s : JAStream) (ids : list nat)
    (k : Listener) (xs : list Value) :
  touches ids k -> self s ∉ ids ->
  forall w,
    fields_of (exec (forEach xs (emission_of r s k)) w) s
    = fold_left (track_of r s) xs (fields_of w s).
Proof.
  intros Hk Hs. induction xs as [|x xs IH]; intros w; simpl; [reflexivity|].
  pose proof (emission_fields r s ids k x w Hk Hs) as Hone.
  destruct (touches_emission r s ids k Hk x w) as (w1 & Hrun & _).
  unfold exec in *. unfold bind. rewrite Hrun in *. simpl in Hone.
  rewrite IH, Hone. reflexivity.
Qed.

Lemma forEach_filter (pred : Predicate) (xs : list Value) (next : Listener) :
  forall w,
    forEach xs (fun x => if pred x then next x else ret tt) w
    = forEach (List.filter pred xs) next w.
Proof.
  induction xs as [|x xs IH]; intros w; simpl; [reflexivity|].
  destruct (pred x); simpl; unfold bind.
  - destruct (next x w) as [[[]|e] w1]; auto.
  - unfold ret. apply IH.
Qed.

Lemma forEach_map (mapFn : Mapper) (xs : list Value) (next : Listener) :
  forall w,
    forEach xs (fun x => next (mapFn x)) w = forEach (List.map mapFn xs) next w.
Proof.
  induction xs as [|x xs IH]; intros w; simpl; [reflexivity|].
  unfold bind. destruct (next (mapFn x) w) as [[[]|e] w1]; auto.
Qed.

(** ** Producers built by [from], [filter] and [map] *)

Lemma from_returns (xs : list Value) (w : World) :
  exists s w0, Op.from xs w = (Returned s, w0) /\
    self s = next_object w /\
    next_object w0 = S (next_object w) /\
    emits (generator s) xs.
Proof.
  eexists _, _. split; [reflexivity|]. simpl. repeat split.
Qed.

Lemma filter_returns (this : JAStream) (pred : Predicate) (xs : list Value)
    (w : World) :
  emits (generator this) xs ->
  exists s w0, Op.filter this pred w = (Returned s, w0) /\
    self s = next_object w /\
    next_object w0 = S (next_object w) /\
    emits (generator s) (List.filter pred xs).
Proof.
  intros Hxs. eexists _, _. split; [reflexivity|]. simpl. repeat split.
  intros next w1. simpl. rewrite Hxs. apply forEach_filter.
Qed.

Lemma map_returns (this : JAStream) (mapFn : Mapper) (xs : list Value)
    (w : World) :
  emits (generator this) xs ->
  exists s w0, Op.map this mapFn w = (Returned s, w0) /\
    self s = next_object w /\
    next_object w0 = S (next_object w) /\
    emits (generator s) (List.map mapFn xs).
Proof.
  intros Hxs. eexists _, _. split; [reflexivity|]. simpl. repeat split.
  intros next w1. simpl. rewrite Hxs. apply forEach_map.
Qed.

(** Subscribing to a synchronous producer with the mock records exactly
    what the producer emits. *)
Lemma subscribe_emits_mock (r : Revision) (s : JAStream) (xs : list Value) :
  emits (generator s) xs ->
  forall w, exists w',
    subscribe_of r s mockListener w = (Returned tt, w') /\
    calls w' = calls w ++ xs.
Proof.
  intros Hxs w. rewrite subscribe_of_unfold, Hxs.
  destruct (forEach_touches [self s] (emission_of r s mockListener) xs
              (touches_emission r s [] _ touches_mockListener) w)
    as (w' & Hrun & Hc & _).
  eauto.
Qed.

Lemma subscribe_emits_mock_twice (r : Revision) (s : JAStream)
    (xs : list Value) :
  emits (generator s) xs ->
  forall w, exists w',
    (subscribe_of r s mockListener ;;; subscribe_of r s mockListener) w
    = (Returned tt, w') /\
    calls w' = calls w ++ xs ++ xs.
Proof.
  intros Hxs w.
  destruct (subscribe_emits_mock r s xs Hxs w) as (w1 & Hrun1 & Hc1).
  destruct (subscribe_emits_mock r s xs Hxs w1) as (w2 & Hrun2 & Hc2).
  exists w2. unfold bind. rewrite Hrun1, Hrun2. split; [reflexivity|].
  rewrite Hc2, Hc1, <- app_assoc. reflexivity.
Qed.

(** ** C1: [from] *)

(** C1. For every finite sequence [S], in each of the three revisions,
    every [subscribe(listener)] on [JAStream.from(S)] runs the listener
    once per element of [S], in order (after the bookkeeping of the
    revision): a mock listener is called exactly [length S] more times,
    with the elements of [S]; a second [subscribe] replays [S] from the
    start, so that two calls record [S ++ S]. *)
Theorem from_replays_sequence (r : Revision) (S : list Value) (w : World) :
  exists s w0,
    Op.from S w = (Returned s, w0) /\
    (forall listener w1,
       subscribe_of r s listener w1
       = forEach S (emission_of r s listener) w1) /\
    (forall w1, exists w2,
       subscribe_of r s mockListener w1 = (Returned tt, w2) /\
       calls w2 = calls w1 ++ S /\
       length (calls w2) = (length (calls w1) + length S)%nat) /\
    (forall w1, exists w3,
       (subscribe_of r s mockListener ;;; subscribe_of r s mockListener) w1
       = (Returned tt, w3) /\
       calls w3 = calls w1 ++ S ++ S /\
       length (calls w3) = (length (calls w1) + 2 * length S)%nat).
Proof.
  destruct (from_returns S w) as (s & w0 & Hnew & _ & _ & Hxs).
  exists s, w0. split; [exact Hnew|]. split; [|split].
  - intros listener w1. rewrite subscribe_of_unfold. apply Hxs.
  - intros w1. destruct (subscribe_emits_mock r s S Hxs w1) as (w2 & ? & Hc).
    exists w2. repeat split; try done. rewrite Hc, length_app. reflexivity.
  - intros w1.
    destruct (subscribe_emits_mock_twice r s S Hxs w1) as (w3 & ? & Hc).
    exists w3. repeat split; try done. rewrite Hc, !length_app. lia.
Qed.

(** ** C6: [filter] *)

(** C6. For every predicate [P] and sequence [S], in each revision,
    subscribing to [from(S).filter(P)] runs the listener once per element
    of [S] that satisfies [P], in the original relative order; the other
    elements produce no call. *)
Theorem filter_emits_satisfying_subsequence (r : Revision) (P : Predicate)
    (S : list Value) (w : World) :
  exists f w0,
    (s <- Op.from S ;; Op.filter s P) w = (Returned f, w0) /\
    (forall listener w1,
       subscribe_of r f listener w1
       = forEach (List.filter P S) (emission_of r f listener) w1) /\
    (forall w1, exists w2,
       subscribe_of r f mockListener w1 = (Returned tt, w2) /\
       calls w2 = calls w1 ++ List.filter P S /\
       length (calls w2)
       = (length (calls w1) + length (List.filter P S))%nat).
Proof.
  destruct (from_returns S w) as (s & w0 & Hnew & _ & _ & Hxs).
  destruct (filter_returns s P S w0 Hxs) as (f & w1 & Hf & _ & _ & Hfs).
  exists f, w1. split; [|split].
  - unfold bind. rewrite Hnew. exact Hf.
  - intros listener w2. rewrite subscribe_of_unfold. apply Hfs.
  - intros w2.
    destruct (subscribe_emits_mock r f _ Hfs w2) as (w3 & ? & Hc).
    exists w3. repeat split; try done. rewrite Hc, length_app. reflexivity.
Qed.

(** ** C2: [reduce] *)

Lemma scan_length (fn : Reducer) (xs : list Value) :
  forall acc, length (scan fn acc xs) = length xs.
Proof. induction xs as [|x xs IH]; intros acc; simpl; [|rewrite IH]; done. Qed.

(** The body of the callback of [reduce], run over [xs] while the
    accumulator variable holds [a]. *)
Lemma reduce_loop (fn : Reducer) (ids : list nat) (k : Listener)
    (acc : nat) (xs : list Value) :
  touches ids k ->
  forall a w,
    cells w !! acc = Some a ->
    exists w',
      forEach xs (fun x =>
        a <- read_cell acc ;;
        write_cell acc (fn a x) ;;;
        a' <- read_cell acc ;;
        k a') w = (Returned tt, w') /\
      calls w' = calls w ++ scan fn a xs /\
      next_cell w' = next_cell w /\
      next_object w' = next_object w /\
      forall i, i ∉ ids -> objects w' !! i = objects w !! i.
Proof.
  intros Hk. induction xs as [|x xs IH]; intros a w Ha; simpl.
  - exists w. rewrite app_nil_r. repeat split; reflexivity.
  - unfold bind at 1 2 3 4. unfold read_cell at 1 2, write_cell at 1; simpl.
    rewrite Ha; simpl. rewrite lookup_insert_eq; simpl.
    match goal with |- context [k _ ?w0] =>
      destruct (Hk (fn a x) w0) as (w1 & Hrun & Hc & Hce & Hnc & Hno & Hfr)
    end.
    rewrite Hrun. simpl in *.
    destruct (IH (fn a x) w1) as (w2 & Hrun2 & Hc2 & Hnc2 & Hno2 & Hfr2).
    { rewrite Hce. apply lookup_insert_eq. }
    exists w2. split; [exact Hrun2|]. repeat split; try congruence.
    + rewrite Hc2, Hc, <- app_assoc. reflexivity.
    + intros i Hi. rewrite Hfr2, Hfr; auto.
Qed.

Lemma reduce_generator_touches (fn : Reducer) (V : Value) (this : JAStream)
    (xs : list Value) (ids : list nat) (k : Listener) :
  emits (generator this) xs -> touches ids k ->
  forall w, exists w',
    (acc <- new_cell V ;;
     generator this (fun x =>
       a <- read_cell acc ;;
       write_cell acc (fn a x) ;;;
       a' <- read_cell acc ;;
       k a')) w = (Returned tt, w') /\
    calls w' = calls w ++ scan fn V xs /\
    next_object w' = next_object w /\
    forall i, i ∉ ids -> objects w' !! i = objects w !! i.
Proof.
  intros Hxs Hk w. unfold bind at 1, new_cell at 1. rewrite Hxs.
  match goal with |- context [forEach _ _ ?w0] =>
    destruct (reduce_loop fn ids k (next_cell w) xs Hk V w0)
      as (w' & Hrun & Hc & _ & Hno & Hfr)
  end.
  { simpl. apply lookup_insert_eq. }
  exists w'. split; [exact Hrun|]. repeat split; assumption.
Qed.

(** C2. For every reducer [R], seed [V] and sequence [S], in each revision,
    subscribing to [from(S).reduce(R, V)] calls the listener exactly
    [length S] times, with the running folds [R(V,s1), R(R(V,s1),s2), ...]
    in order; the seed is not emitted (nothing is emitted for the empty
    sequence), and every [subscribe] starts again from the accumulator [V]:
    two calls record the same folds twice. *)
Theorem reduce_emits_running_folds (r : Revision) (R : Reducer) (V : Value)
    (S : list Value) (w : World) :
  exists red w0,
    (s <- Op.from S ;; Op.reduce s R V) w = (Returned red, w0) /\
    (forall w1, exists w2,
       subscribe_of r red mockListener w1 = (Returned tt, w2) /\
       calls w2 = calls w1 ++ scan R V S /\
       length (calls w2) = (length (calls w1) + length S)%nat) /\
    (forall w1, exists w3,
       (subscribe_of r red mockListener ;;;
        subscribe_of r red mockListener) w1 = (Returned tt, w3) /\
       calls w3 = calls w1 ++ scan R V S ++ scan R V S) /\
    scan R V [] = [] /\
    (forall s1 rest, scan R V (s1 :: rest) = R V s1 :: scan R (R V s1) rest).
Proof.
  destruct (from_returns S w) as (s & w0 & Hnew & _ & _ & Hxs).
  eexists _, _. split.
  { unfold bind. rewrite Hnew. reflexivity. }
  set (red := mkJAStream _ _ _ _).
  assert (Hone : forall w1, exists w2,
             subscribe_of r red mockListener w1 = (Returned tt, w2) /\
             calls w2 = calls w1 ++ scan R V S).
  { intros w1. rewrite subscribe_of_unfold.
    destruct (reduce_generator_touches R V s S [self red]
                (emission_of r red mockListener) Hxs
                (touches_emission r red [] _ touches_mockListener) w1)
      as (w2 & Hrun & Hc & _).
    exists w2. split; [exact Hrun | exact Hc]. }
  split; [|split; [|split]].
  - intros w1. destruct (Hone w1) as (w2 & Hrun & Hc). exists w2.
    repeat split; try done. rewrite Hc, length_app, scan_length. reflexivity.
  - intros w1. destruct (Hone w1) as (w2 & Hrun & Hc).
    destruct (Hone w2) as (w3 & Hrun3 & Hc3). exists w3.
    unfold bind. rewrite Hrun, Hrun3. split; [reflexivity|].
    rewrite Hc3, Hc, <- app_assoc. reflexivity.
  - reflexivity.
  - reflexivity.
Qed.

(** ** [slice] as used by the buffer *)

Lemma slice_whole {A} (l : list A) : slice l (0 * -1) None = l.
Proof.
  unfold slice, relative_index; simpl.
  rewrite Z.min_l by lia. simpl. rewrite Z.sub_0_r, Z.max_l by lia.
  rewrite Nat2Z.id. apply firstn_all.
Qed.

Lemma slice_last_n {A} (l : list A) (k : Z) :
  1 <= k -> slice l (k * -1) None = lastn (Z.to_nat k) l.
Proof.
  intros Hk. unfold slice, relative_index, lastn.
  destruct (Z.ltb_spec (k * -1) 0) as [_|]; [|lia].
  replace (Z.to_nat (Z.max (Z.of_nat (length l) + k * -1) 0))
    with (length l - Z.to_nat k)%nat by lia.
  apply take_ge. rewrite length_drop. lia.
Qed.

Lemma slice_first_ten {A} (l : list A) : slice l 0 (Some 10) = take 10 l.
Proof.
  unfold slice, relative_index.
  destruct (Z.ltb_spec 0 0) as [|_]; [lia|].
  destruct (Z.ltb_spec 10 0) as [|_]; [lia|].
  replace (Z.to_nat (Z.min 0 (Z.of_nat (length l)))) with 0%nat by lia.
  replace (Z.to_nat (Z.max (Z.min 10 (Z.of_nat (length l))
                            - Z.min 0 (Z.of_nat (length l))) 0))
    with (Nat.min 10 (length l)) by lia.
  rewrite drop_0.
  destruct (Nat.le_gt_cases (length l) 10) as [Hle|Hgt].
  - rewrite Nat.min_r by lia. rewrite firstn_all.
    symmetry. apply take_ge. lia.
  - rewrite Nat.min_l by lia. reflexivity.
Qed.

Lemma lastn_length {A} (k : nat) (l : list A) :
  length (lastn k l) = Nat.min k (length l).
Proof. unfold lastn. rewrite length_drop. lia. Qed.

Lemma lastn_all {A} (k : nat) (l : list A) :
  (length l <= k)%nat -> lastn k l = l.
Proof.
  intros Hle. unfold lastn. replace (length l - k)%nat with 0%nat by lia.
  reflexivity.
Qed.

Lemma lastn_suffix {A} (k : nat) (l : list A) :
  exists evicted, l = evicted ++ lastn k l /\
                  length evicted = (length l - k)%nat.
Proof.
  exists (take (length l - k) l). unfold lastn. split.
  - symmetry. apply take_drop.
  - rewrite length_take. lia.
Qed.

(** Truncating after every push is the same as truncating once. *)
Lemma lastn_app_lastn {A} (k : nat) (l ys : list A) :
  lastn k (lastn k l ++ ys) = lastn k (l ++ ys).
Proof.
  destruct (Nat.le_gt_cases (length l) k) as [Hle|Hgt].
  - by rewrite (lastn_all k l).
  - unfold lastn.
    rewrite <- (drop_app_le l ys (length l - k)) by lia.
    rewrite drop_drop. f_equal.
    rewrite length_drop, !length_app. lia.
Qed.

Lemma take_app_take {A} (k : nat) (l ys : list A) :
  take k (take k l ++ ys) = take k (l ++ ys).
Proof.
  destruct (Nat.le_gt_cases (length l) k) as [Hle|Hgt].
  - by rewrite (take_ge l k).
  - rewrite take_app_le by (rewrite length_take; lia).
    rewrite take_take, Nat.min_id.
    rewrite take_app_le by lia. reflexivity.
Qed.

Lemma lastn_snoc {A} (k : nat) (l : list A) (x : A) :
  (1 <= k)%nat -> exists older, lastn k (l ++ [x]) = older ++ [x].
Proof.
  intros Hk. exists (drop (length l + 1 - k) l). unfold lastn.
  rewrite length_app; simpl. apply drop_app_le. lia.
Qed.

(** ** The fields after a run of emissions *)

Lemma fold_track_last (r : Revision) (s : JAStream) (xs : list Value)
    (f : Fields) :
  xs ≠ [] -> last (fold_left (track_of r s) xs f) = final xs.
Proof.
  destruct xs as [|x xs _] using rev_ind; [done|]. intros _.
  rewrite fold_left_app. simpl. rewrite track_of_last. unfold final.
  by rewrite List.last_last.
Qed.

Lemma fold_track_buffer_off (s : JAStream) (xs : list Value) (f : Fields) :
  useBuffer s = false ->
  buffer (fold_left (Options.track s) xs f) = buffer f.
Proof.
  intros Hoff. revert f. induction xs as [|x xs IH]; intros f; simpl.
  - reflexivity.
  - rewrite IH. unfold Options.track. by rewrite Hoff.
Qed.

Lemma fold_track_buffer_zero (s : JAStream) (xs : list Value) (f : Fields) :
  useBuffer s = true -> bufferSize s = 0 ->
  buffer (fold_left (Options.track s) xs f) = buffer f ++ xs.
Proof.
  intros Hon Hzero. revert f. induction xs as [|x xs IH]; intros f; simpl.
  - by rewrite app_nil_r.
  - rewrite IH. unfold Options.track. rewrite Hon, Hzero; simpl.
    rewrite slice_whole, <- app_assoc. reflexivity.
Qed.

Lemma fold_track_buffer_on (s : JAStream) (xs : list Value) (f : Fields) :
  useBuffer s = true -> 1 <= bufferSize s ->
  (length (buffer f) <= Z.to_nat (bufferSize s))%nat ->
  buffer (fold_left (Options.track s) xs f)
  = lastn (Z.to_nat (bufferSize s)) (buffer f ++ xs).
Proof.
  intros Hon Hk Hlen. induction xs as [|x xs IH] using rev_ind.
  - simpl. rewrite app_nil_r. symmetry. by apply lastn_all.
  - rewrite fold_left_app. simpl.
    set (F := fold_left (Options.track s) xs f) in *.
    unfold Options.track. rewrite Hon; simpl. rewrite slice_last_n by done.
    rewrite IH, lastn_app_lastn, <- app_assoc. reflexivity.
Qed.

Lemma fold_track_buffer_beta (s : JAStream) (xs : list Value) (f : Fields) :
  (length (buffer f) <= 10)%nat ->
  buffer (fold_left (Beta.track s) xs f) = take 10 (buffer f ++ xs).
Proof.
  intros Hlen. induction xs as [|x xs IH] using rev_ind.
  - simpl. rewrite app_nil_r. symmetry. by apply take_ge.
  - rewrite fold_left_app. simpl.
    set (F := fold_left (Beta.track s) xs f) in *.
    unfold Beta.track; simpl.
    rewrite slice_first_ten, IH, take_app_take, <- app_assoc. reflexivity.
Qed.

(** Subscribing to a synchronous producer with the mock: the fields of the
    stream afterwards. *)
Lemma subscribe_emits_fields (r : Revision) (s : JAStream) (xs : list Value) :
  emits (generator s) xs ->
  forall w, exists w',
    subscribe_of r s mockListener w = (Returned tt, w') /\
    calls w' = calls w ++ xs /\
    fields_of w' s = fold_left (track_of r s) xs (fields_of w s) /\
    next_object w' = next_object w /\
    forall i, i ≠ self s -> objects w' !! i = objects w !! i.
Proof.
  intros Hxs w. rewrite subscribe_of_unfold, Hxs.
  pose proof (forEach_emission_fields r s [] mockListener xs
                touches_mockListener (not_elem_of_nil _) w) as Hf.
  destruct (forEach_touches [self s] (emission_of r s mockListener) xs
              (touches_emission r s [] _ touches_mockListener) w)
    as (w' & Hrun & Hc & _ & _ & Hno & Hfr).
  unfold exec in Hf. rewrite Hrun in Hf. simpl in Hf.
  exists w'. split; [exact Hrun|]. split; [exact Hc|].
  split; [exact Hf|]. split; [exact Hno|].
  intros i Hi. apply Hfr. by intros ->%list_elem_of_singleton.
Qed.

(** ** The constructor *)

Lemma new_JAStream_returns (g : DataGenerator)
    (options : option JAStreamOptions) (w : World) :
  exists s w0,
    new_JAStream g options w = (Returned s, w0) /\
    self s = next_object w /\
    generator s = g /\
    useBuffer s
    = match options with Some o => opt_useBuffer o | None => false end /\
    bufferSize s
    = match options with Some o => opt_bufferSize o | None => 1 end /\
    fields_of w0 s = fresh_fields /\
    calls w0 = calls w /\
    next_object w0 = S (next_object w).
Proof.
  eexists _, _. split; [reflexivity|]. simpl. repeat split.
  unfold fields_of; simpl. by rewrite lookup_insert_eq.
Qed.

(** ** C7: the order of the steps of one emission *)

(** C7. In the revision with options, [subscribe] hands the generator one
    callback; whenever the producer calls it with a value [x], the
    listener is called with [x] in a store in which [getLast()] already
    returns [x] and the buffer has already been pushed to and sliced, and
    nothing has been recorded by the listener yet.  With a capacity that
    is not negative the buffer the listener sees ends in [x]; with a
    capacity of at least one it is within the capacity. *)
Theorem emission_updates_fields_before_listener (s : JAStream)
    (listener : Listener) (x : Value) (w : World) :
  (forall w0,
     Options.subscribe s listener w0
     = generator s (Options.emission s listener) w0) /\
  exists w1,
    Options.emission s listener x w = listener x w1 /\
    calls w1 = calls w /\
    Options.getLast s w1 = (Returned x, w1) /\
    buffer (fields_of w1 s)
    = (if useBuffer s
       then slice (buffer (fields_of w s) ++ [x]) (bufferSize s * -1) None
       else buffer (fields_of w s)) /\
    (useBuffer s = true -> 0 <= bufferSize s ->
     exists older,
       Options.getBuffer s w1 = (Returned (older ++ [x]), w1)) /\
    (useBuffer s = true -> 1 <= bufferSize s ->
     (length (buffer (fields_of w1 s)) <= Z.to_nat (bufferSize s))%nat).
Proof.
  split; [reflexivity|].
  exists (set_fields s (Options.track s (fields_of w s) x) w).
  split; [apply Options_emission_run|]. split; [reflexivity|].
  split.
  { unfold Options.getLast, read_last. by rewrite fields_of_set_fields. }
  split.
  { by rewrite fields_of_set_fields. }
  split.
  - intros Hon Hk. unfold Options.getBuffer, read_buffer.
    rewrite Hon, fields_of_set_fields. unfold Options.track; simpl.
    rewrite Hon.
    destruct (Z.eq_dec (bufferSize s) 0) as [Hz|Hnz].
    + rewrite Hz, slice_whole. eauto.
    + rewrite slice_last_n by lia.
      destruct (lastn_snoc (Z.to_nat (bufferSize s))
                  (buffer (fields_of w s)) x) as (older & ->); [lia|].
      eauto.
  - intros Hon Hk. rewrite fields_of_set_fields. unfold Options.track; simpl.
    rewrite Hon, slice_last_n by done. rewrite lastn_length. lia.
Qed.

(** ** C3: the bounded buffer *)

(** C3. In the revision with options, for a stream with buffering enabled
    and a capacity [bufferSize >= 1]: a stream just constructed has an
    empty buffer; if the buffer holds the last [bufferSize] values of what
    was emitted so far ([history]), then after a [subscribe] that delivers
    [xs] it holds the last [bufferSize] values of [history ++ xs], most
    recent last: [min n bufferSize] values for [n] emissions in all, never
    more than [bufferSize], the evicted ones being the oldest.  With
    [{useBuffer: true, bufferSize: 3}] and the emissions 1..15,
    [getBuffer()] returns [13, 14, 15]. *)
Theorem buffer_holds_most_recent :
  (forall g k w0, exists s w1,
     new_JAStream g (Some (mkOptions true k)) w0 = (Returned s, w1) /\
     generator s = g /\ useBuffer s = true /\ bufferSize s = k /\
     Options.getBuffer s w1 = (Returned (lastn (Z.to_nat k) []), w1)) /\
  (forall s xs history w,
     useBuffer s = true -> 1 <= bufferSize s ->
     emits (generator s) xs ->
     buffer (fields_of w s) = lastn (Z.to_nat (bufferSize s)) history ->
     exists w',
       Options.subscribe s mockListener w = (Returned tt, w') /\
       Options.getBuffer s w'
       = (Returned (lastn (Z.to_nat (bufferSize s)) (history ++ xs)), w') /\
       length (buffer (fields_of w' s))
       = Nat.min (length (history ++ xs)) (Z.to_nat (bufferSize s)) /\
       (length (buffer (fields_of w' s)) <= Z.to_nat (bufferSize s))%nat /\
       exists evicted,
         history ++ xs = evicted ++ buffer (fields_of w' s)) /\
  eval (s <- new_JAStream
              (fun listener =>
                 forEach (nums [1;2;3;4;5;6;7;8;9;10;11;12;13;14;15]) listener)
              (Some (mkOptions true 3)) ;;
        Options.subscribe s (fun _ => ret tt) ;;;
        Options.getBuffer s) empty_world
  = Returned (nums [13; 14; 15]).
Proof.
  split; [|split].
  - intros g k w0.
    destruct (new_JAStream_returns g (Some (mkOptions true k)) w0)
      as (s & w1 & Hnew & _ & Hg & Hon & Hk & Hf & _).
    exists s, w1. simpl in *. repeat split; try done.
    unfold Options.getBuffer, read_buffer. rewrite Hon, Hf. reflexivity.
  - intros s xs history w Hon Hk Hxs Hinv.
    destruct (subscribe_emits_fields OptionsTs s xs Hxs w)
      as (w' & Hrun & _ & Hf & _).
    simpl in Hrun, Hf.
    assert (Hb : buffer (fields_of w' s)
                 = lastn (Z.to_nat (bufferSize s)) (history ++ xs)).
    { rewrite Hf, fold_track_buffer_on, Hinv; try done.
      - apply lastn_app_lastn.
      - rewrite Hinv, lastn_length. lia. }
    exists w'. split; [exact Hrun|]. split.
    { unfold Options.getBuffer, read_buffer. by rewrite Hon, Hb. }
    rewrite Hb, lastn_length. split; [lia|]. split; [lia|].
    destruct (lastn_suffix (Z.to_nat (bufferSize s)) (history ++ xs))
      as (evicted & Heq & _).
    exists evicted. exact Heq.
  - vm_compute. reflexivity.
Qed.

(** ** C10: a capacity of zero *)

(** C10. In the revision with options, a stream constructed with
    [{useBuffer: true, bufferSize: 0}] never truncates its buffer:
    [slice(-0)] keeps the whole array, so after a [subscribe] that
    delivers [xs], [getBuffer()] returns everything that was in the buffer
    followed by all of [xs]; on a new stream, all [n] emitted values, and
    after a second [subscribe] all [2 n].  The buffer is then longer than
    the capacity as soon as one value has been emitted. *)
Theorem zero_capacity_buffer_keeps_everything (g : DataGenerator)
    (xs : list Value) (w : World) :
  emits g xs ->
  exists s w0 w1 w2,
    new_JAStream g (Some (mkOptions true 0)) w = (Returned s, w0) /\
    useBuffer s = true /\ bufferSize s = 0 /\
    Options.getBuffer s w0 = (Returned [], w0) /\
    Options.subscribe s mockListener w0 = (Returned tt, w1) /\
    Options.getBuffer s w1 = (Returned xs, w1) /\
    Options.subscribe s mockListener w1 = (Returned tt, w2) /\
    Options.getBuffer s w2 = (Returned (xs ++ xs), w2) /\
    (xs ≠ [] -> bufferSize s < Z.of_nat (length (buffer (fields_of w1 s)))).
Proof.
  intros Hxs.
  destruct (new_JAStream_returns g (Some (mkOptions true 0)) w)
    as (s & w0 & Hnew & _ & Hg & Hon & Hk & Hf & _).
  simpl in Hon, Hk. rewrite <- Hg in Hxs.
  destruct (subscribe_emits_fields OptionsTs s xs Hxs w0)
    as (w1 & Hrun1 & _ & Hf1 & _).
  destruct (subscribe_emits_fields OptionsTs s xs Hxs w1)
    as (w2 & Hrun2 & _ & Hf2 & _).
  simpl in Hrun1, Hf1, Hrun2, Hf2.
  assert (Hb1 : buffer (fields_of w1 s) = xs).
  { rewrite Hf1, fold_track_buffer_zero, Hf by done. reflexivity. }
  assert (Hb2 : buffer (fields_of w2 s) = xs ++ xs).
  { rewrite Hf2, fold_track_buffer_zero, Hb1 by done. reflexivity. }
  exists s, w0, w1, w2. unfold Options.getBuffer, read_buffer.
  rewrite Hon, Hf, Hb1, Hb2. repeat split; try done.
  intros Hne. rewrite Hk. destruct xs; [done|]. simpl. lia.
Qed.

(** ** C4: [getBuffer] *)

(** C4. In the revision with options, [getBuffer()] throws exactly when
    the stream was constructed without [useBuffer] (no options, or
    [useBuffer: false]); otherwise it returns the buffer as it stands, the
    empty array right after construction.  In both cases the store is left
    as it was. *)
Theorem getBuffer_throws_iff_buffer_disabled :
  (forall s w,
     (exists message, Options.getBuffer s w = (Thrown message, w))
     <-> useBuffer s = false) /\
  (forall s w,
     useBuffer s = true
     <-> Options.getBuffer s w = (Returned (buffer (fields_of w s)), w)) /\
  (forall s w, snd (Options.getBuffer s w) = w) /\
  (forall g options w, exists s w0,
     new_JAStream g options w = (Returned s, w0) /\
     (useBuffer s = false
      <-> (options = None
           \/ exists o, options = Some o /\ opt_useBuffer o = false)) /\
     (useBuffer s = true -> Options.getBuffer s w0 = (Returned [], w0))).
Proof.
  split; [|split; [|split]].
  - intros s w. unfold Options.getBuffer, read_buffer, throw.
    destruct (useBuffer s); split.
    + intros (message & Hm). discriminate Hm.
    + discriminate.
    + reflexivity.
    + intros _. eexists. reflexivity.
  - intros s w. unfold Options.getBuffer, read_buffer, throw.
    destruct (useBuffer s); split; try done.
  - intros s w. unfold Options.getBuffer, read_buffer, throw.
    by destruct (useBuffer s).
  - intros g options w.
    destruct (new_JAStream_returns g options w)
      as (s & w0 & Hnew & _ & _ & Hon & _ & Hf & _).
    exists s, w0. split; [exact Hnew|]. split.
    + rewrite Hon. destruct options as [o|]; split.
      * intros Hoff. right. eauto.
      * intros [Hnone|(o' & Ho' & Hoff)]; [done|]. by inversion Ho'; subst.
      * intros _. by left.
      * reflexivity.
    + intros Hen. unfold Options.getBuffer, read_buffer.
      by rewrite Hen, Hf.
Qed.

(** ** The BETA buffer of [src/src/index.ts]

    That revision has no options: every stream pushes to its buffer and
    keeps [slice(0, 10)], the first ten values ever emitted, and
    [getBuffer()] never throws. *)

Lemma Beta_getBuffer_returns (s : JAStream) (w : World) :
  Beta.getBuffer s w = (Returned (buffer (fields_of w s)), w).
Proof. reflexivity. Qed.

Lemma Beta_buffer_keeps_first_ten (s : JAStream) (xs : list Value)
    (w : World) :
  emits (generator s) xs ->
  (length (buffer (fields_of w s)) <= 10)%nat ->
  exists w',
    Beta.subscribe s mockListener w = (Returned tt, w') /\
    Beta.getBuffer s w'
    = (Returned (take 10 (buffer (fields_of w s) ++ xs)), w').
Proof.
  intros Hxs Hlen.
  destruct (subscribe_emits_fields BetaTs s xs Hxs w)
    as (w' & Hrun & _ & Hf & _).
  exists w'. split; [exact Hrun|].
  rewrite Beta_getBuffer_returns, Hf. simpl.
  by rewrite fold_track_buffer_beta.
Qed.

Lemma Beta_buffer_of_fifteen :
  eval (s <- new_JAStream
              (fun listener =>
                 forEach (nums [1;2;3;4;5;6;7;8;9;10;11;12;13;14;15]) listener)
              None ;;
        Beta.subscribe s (fun _ => ret tt) ;;;
        Beta.getBuffer s) empty_world
  = Returned (nums [1; 2; 3; 4; 5; 6; 7; 8; 9; 10]).
Proof. vm_compute. reflexivity. Qed.

(** ** The README example of [getBuffer]

    [stream.subscribe(event => console.log(event, ' - ',
    stream.getBuffer()))] with [bufferSize: 3] over 2, 4, 1, 5, 5: each
    call sees the event as [getLast()] and at the end of the buffer. *)
Lemma readme_buffer_trace :
  calls (exec (Options.subscribe buffered (spy buffered)) one_stream)
  = [VArr [VNum 2; VNum 2; VArr (nums [2])];
     VArr [VNum 4; VNum 4; VArr (nums [2; 4])];
     VArr [VNum 1; VNum 1; VArr (nums [2; 4; 1])];
     VArr [VNum 5; VNum 5; VArr (nums [4; 1; 5])];
     VArr [VNum 5; VNum 5; VArr (nums [1; 5; 5])]].
Proof. vm_compute. reflexivity. Qed.

(** ** [merge] *)

Lemma merge_returns (r : Revision) (streams : list JAStream) (w : World) :
  exists m w0,
    merge_of r streams w = (Returned m, w0) /\
    self m = next_object w /\
    forall next w1,
      generator m next w1
      = forEach streams (fun stream => subscribe_of r stream next) w1.
Proof.
  destruct r; eexists _, _; (split; [reflexivity|]); simpl; split; reflexivity.
Qed.

(** The loop of [merge] over synchronous inputs, with a recording callback:
    the inputs are drained one after the other, and each input keeps track
    of its own values. *)
Lemma merge_loop (r : Revision) (ids : list nat) (k : Listener)
    (streams : list JAStream) (xss : list (list Value)) :
  touches ids k ->
  Forall2 (fun s xs => emits (generator s) xs) streams xss ->
  forall w, exists w',
    forEach streams (fun stream => subscribe_of r stream k) w
    = (Returned tt, w') /\
    calls w' = calls w ++ concat xss /\
    next_object w' = next_object w /\
    (forall i, i ∉ (self <$> streams) ++ ids ->
               objects w' !! i = objects w !! i) /\
    (NoDup (self <$> streams) ->
     Forall (fun s => self s ∉ ids) streams ->
     forall j s xs,
       streams !! j = Some s -> xss !! j = Some xs ->
       fields_of w' s = fold_left (track_of r s) xs (fields_of w s)).
Proof.
  intros Hk Hall. induction Hall as [|s xs streams xss Hxs Hall IH];
    intros w; simpl.
  - exists w. rewrite app_nil_r. repeat split; try reflexivity.
    intros _ _ j s xs Hj. discriminate Hj.
  - unfold bind. rewrite subscribe_of_unfold, Hxs.
    pose proof (forEach_emission_fields r s ids k xs Hk) as Hhead.
    destruct (forEach_touches (self s :: ids) (emission_of r s k) xs
                (touches_emission r s ids k Hk) w)
      as (w1 & Hrun1 & Hc1 & _ & _ & Hno1 & Hfr1).
    unfold exec in Hhead. specialize (fun H => Hhead H w).
    rewrite Hrun1 in *. simpl in Hhead.
    destruct (IH w1) as (w2 & Hrun2 & Hc2 & Hno2 & Hfr2 & Hfields2).
    exists w2. split; [exact Hrun2|]. split.
    { rewrite Hc2, Hc1, <- app_assoc. reflexivity. }
    split; [congruence|]. split.
    { intros i Hi. rewrite Hfr2, Hfr1;
        [reflexivity | eapply not_in_head, Hi | eapply not_in_tail, Hi]. }
    intros Hnd Hfresh j s' xs' Hj Hj'.
    apply NoDup_cons in Hnd as [Hnotin Hnd].
    apply Forall_cons in Hfresh as [Hs Hfresh].
    destruct j as [|j]; simpl in Hj, Hj'.
    + inversion Hj; inversion Hj'; subst s' xs'.
      rewrite (fields_of_agree s w1 w2).
      * apply Hhead. exact Hs.
      * apply Hfr2. by apply not_in_app.
    + rewrite (Hfields2 Hnd Hfresh j s' xs' Hj Hj').
      f_equal. apply fields_of_agree, Hfr1.
      assert (self s' ∈ self <$> streams)
        by (apply list_elem_of_fmap; exists s'; split;
            [reflexivity | eapply list_elem_of_lookup_2; exact Hj]).
      assert (self s' ∉ ids)
        by (eapply (proj1 (Forall_forall _ _) Hfresh),
              list_elem_of_lookup_2; exact Hj).
      intros [Heq|Hin]%elem_of_cons; [|by eauto].
      apply Hnotin. by rewrite <- Heq.
Qed.

(** The same loop with any callback at all: one inner loop per input. *)
Lemma merge_loop_any (r : Revision) (k : Listener)
    (streams : list JAStream) (xss : list (list Value)) :
  Forall2 (fun s xs => emits (generator s) xs) streams xss ->
  forall w,
    forEach streams (fun stream => subscribe_of r stream k) w
    = forEach (zip streams xss)
              (fun input => forEach (snd input)
                                    (emission_of r (fst input) k)) w.
Proof.
  intros Hall. induction Hall as [|s xs streams xss Hxs Hall IH];
    intros w; simpl; [reflexivity|].
  unfold bind. rewrite subscribe_of_unfold, Hxs.
  destruct (forEach xs (emission_of r s k) w) as [[[]|e] w1]; auto.
Qed.

(** ** C5: [merge] delivers its inputs one after the other *)

(** C5. In each revision, for every list of input streams whose producers
    emit synchronously and exhaustively (stream [i] emits [xss[i]]),
    one [subscribe] on [merge(stream1, ..., streamN)] calls the listener
    with all the values of stream 1 in their order, then all those of
    stream 2, and so on: for any listener the subscription is one loop
    over the inputs with an inner loop over the values of each, and the
    mock records the concatenation of the [xss[i]], one call per value. *)
Theorem merge_delivers_inputs_in_turn (r : Revision)
    (streams : list JAStream) (xss : list (list Value)) (w : World) :
  Forall2 (fun s xs => emits (generator s) xs) streams xss ->
  exists m w0,
    merge_of r streams w = (Returned m, w0) /\
    (forall listener w1,
       subscribe_of r m listener w1
       = forEach (zip streams xss)
           (fun input =>
              forEach (snd input)
                (emission_of r (fst input) (emission_of r m listener))) w1) /\
    forall w1, exists w2,
      subscribe_of r m mockListener w1 = (Returned tt, w2) /\
      calls w2 = calls w1 ++ concat xss /\
      length (calls w2) = (length (calls w1) + length (concat xss))%nat.
Proof.
  intros Hall.
  destruct (merge_returns r streams w) as (m & w0 & Hnew & _ & Hgen).
  exists m, w0. split; [exact Hnew|]. split.
  { intros listener w1. rewrite subscribe_of_unfold, Hgen.
    by apply merge_loop_any. }
  intros w1.
  rewrite subscribe_of_unfold, Hgen.
  destruct (merge_loop r [self m] (emission_of r m mockListener) streams xss
              (touches_emission r m [] _ touches_mockListener) Hall w1)
    as (w2 & Hrun & Hc & _).
  exists w2. split; [exact Hrun|]. split; [exact Hc|].
  rewrite Hc, length_app. reflexivity.
Qed.

(** The example of the specification and of the test suite,
    [merge(from([1,2]), from(['a','b']))] subscribed once, in the revision
    [src/src/index.ts]: four calls, with 1, 2, 'a', 'b'. *)
Lemma merge_delivers_inputs_in_turn_example :
  (a <- Op.from (nums [1; 2]) ;; b <- Op.from [VStr "a"; VStr "b"] ;;
   ret [a; b]) empty_world = (Returned [numbers; letters], two_streams) /\
  exists m w0,
    Beta.merge [numbers; letters] two_streams = (Returned m, w0) /\
    exists w2,
      Beta.subscribe m mockListener w0 = (Returned tt, w2) /\
      calls w2 = [VNum 1; VNum 2; VStr "a"; VStr "b"] /\
      length (calls w2) = 4%nat.
Proof.
  split; [reflexivity|].
  destruct (merge_delivers_inputs_in_turn BetaTs [numbers; letters]
              [nums [1; 2]; [VStr "a"; VStr "b"]] two_streams)
    as (m & w0 & Hnew & _ & Hsub).
  { constructor; [intros next w; reflexivity|].
    constructor; [intros next w; reflexivity|]. constructor. }
  exists m, w0. split; [exact Hnew|].
  destruct (Hsub w0) as (w2 & Hrun & Hc & Hlen).
  assert (Hcalls : calls w0 = []) by (inversion Hnew; reflexivity).
  exists w2. rewrite Hcalls in Hc, Hlen. repeat split; assumption.
Defined.

(** ** C9: [merge] writes to the fields of its inputs *)

Lemma getLast_of_fields (r : Revision) (s : JAStream) (w : World) :
  getLast_of r s w = (Returned (last (fields_of w s)), w).
Proof. by destruct r. Qed.

(** C9. In each revision, one [subscribe] on [merge(stream1, ..., streamN)]
    over distinct, already constructed, synchronous inputs goes through
    the [subscribe] of every input: afterwards the fields of input [j] are
    what its own emissions [xss[j]] make of them; its [getLast()] returns
    the last value it emitted itself; in the revision with options its
    buffer, when enabled with a capacity of at least one, holds the last
    [bufferSize] values of its old contents followed by its own emissions
    (and is left alone when disabled); in [src/src/index.ts] the buffer
    holds the first ten. *)
Theorem merge_updates_every_input (r : Revision) (streams : list JAStream)
    (xss : list (list Value)) (w : World) :
  Forall2 (fun s xs => emits (generator s) xs) streams xss ->
  NoDup (self <$> streams) ->
  Forall (fun s => (self s < next_object w)%nat) streams ->
  exists m w0,
    merge_of r streams w = (Returned m, w0) /\
    forall w1, exists w2,
      subscribe_of r m mockListener w1 = (Returned tt, w2) /\
      forall j s xs,
        streams !! j = Some s -> xss !! j = Some xs ->
        fields_of w2 s = fold_left (track_of r s) xs (fields_of w1 s) /\
        (xs ≠ [] -> getLast_of r s w2 = (Returned (final xs), w2)) /\
        (r = OptionsTs -> useBuffer s = true -> 1 <= bufferSize s ->
         (length (buffer (fields_of w1 s)) <= Z.to_nat (bufferSize s))%nat ->
         Options.getBuffer s w2
         = (Returned (lastn (Z.to_nat (bufferSize s))
                            (buffer (fields_of w1 s) ++ xs)), w2)) /\
        (r = OptionsTs -> useBuffer s = false ->
         buffer (fields_of w2 s) = buffer (fields_of w1 s)) /\
        (r = BetaTs ->
         (length (buffer (fields_of w1 s)) <= 10)%nat ->
         Beta.getBuffer s w2
         = (Returned (take 10 (buffer (fields_of w1 s) ++ xs)), w2)).
Proof.
  intros Hall Hnd Hold.
  destruct (merge_returns r streams w) as (m & w0 & Hnew & Hm & Hgen).
  exists m, w0. split; [exact Hnew|]. intros w1.
  rewrite subscribe_of_unfold, Hgen.
  destruct (merge_loop r [self m] (emission_of r m mockListener) streams xss
              (touches_emission r m [] _ touches_mockListener) Hall w1)
    as (w2 & Hrun & _ & _ & _ & Hfields).
  exists w2. split; [exact Hrun|]. intros j s xs Hj Hj'.
  assert (Hf : fields_of w2 s = fold_left (track_of r s) xs (fields_of w1 s)).
  { apply (Hfields Hnd) with (j := j); try assumption.
    eapply Forall_impl; [exact Hold|]. intros s' Hlt. simpl in Hlt.
    intros Hin%list_elem_of_singleton. lia. }
  split; [exact Hf|]. split; [|split; [|split]].
  - intros Hne. rewrite getLast_of_fields, Hf, fold_track_last by done.
    reflexivity.
  - intros -> Hon Hk Hlen. unfold Options.getBuffer, read_buffer.
    rewrite Hon, Hf. simpl. by rewrite fold_track_buffer_on.
  - intros -> Hoff. rewrite Hf. simpl. by apply fold_track_buffer_off.
  - intros -> Hlen. unfold Beta.getBuffer, read_buffer.
    rewrite Hf. simpl. by rewrite fold_track_buffer_beta.
Qed.

(** ** C8: [withLatestFrom] *)

Lemma last_cons_default {A} (ys : list A) :
  forall y v, List.last (y :: ys) v = List.last ys y.
Proof.
  induction ys as [|a ys IH]; intros y v; [reflexivity|].
  change (List.last (y :: a :: ys) v) with (List.last (a :: ys) v).
  by rewrite !IH.
Qed.

(** The inner subscription to [otherStream]: its listener overwrites the
    variable [latest] with every value. *)
Lemma latest_loop (r : Revision) (other : JAStream) (c : nat)
    (ys : list Value) :
  forall v w,
    cells w !! c = Some v ->
    exists w',
      forEach ys (emission_of r other (fun x => write_cell c x)) w
      = (Returned tt, w') /\
      calls w' = calls w /\
      cells w' !! c = Some (List.last ys v) /\
      next_object w' = next_object w /\
      fields_of w' other = fold_left (track_of r other) ys (fields_of w other) /\
      forall i, i ≠ self other -> objects w' !! i = objects w !! i.
Proof.
  induction ys as [|y ys IH]; intros v w Hv.
  - exists w. simpl. repeat split; try reflexivity. exact Hv.
  - cbn [forEach]. unfold bind. rewrite emission_of_run.
    unfold write_cell at 1. cbn [fst snd].
    match goal with |- context [forEach ys _ ?w0] =>
      destruct (IH y w0) as (w' & Hrun & Hc & Hcell & Hno & Hf & Hfr)
    end.
    { simpl. apply lookup_insert_eq. }
    exists w'. split; [exact Hrun|]. split; [exact Hc|]. split.
    { rewrite Hcell. f_equal. symmetry. apply last_cons_default. }
    split; [exact Hno|]. split.
    + rewrite Hf. cbn [fold_left]. f_equal.
      unfold fields_of; simpl. by rewrite lookup_insert_eq.
    + intros i Hi. rewrite Hfr by done. simpl. by rewrite lookup_insert_ne.
Qed.

(** The outer loop over the primary producer: every emission reads
    [this.last] and [latest] and passes the pair on. *)
Lemma pair_loop (ids : list nat) (k : Listener) (this : JAStream) (c : nat)
    (xs : list Value) :
  touches ids k -> self this ∉ ids ->
  forall w,
    exists w',
      forEach xs (fun y =>
        l <- read_last this ;;
        o <- read_cell c ;;
        k (VArr [l; o])) w = (Returned tt, w') /\
      calls w'
      = calls w
        ++ List.map (fun _ => VArr [last (fields_of w this);
                                    default VUndefined (cells w !! c)]) xs /\
      forall i, i ∉ ids -> objects w' !! i = objects w !! i.
Proof.
  intros Hk Hthis. induction xs as [|x xs IH]; intros w.
  - exists w. simpl. rewrite app_nil_r. repeat split; reflexivity.
  - cbn [forEach List.map]. unfold bind at 1 2 3.
    unfold read_last at 1, read_cell at 1.
    destruct (Hk (VArr [last (fields_of w this);
                        default VUndefined (cells w !! c)]) w)
      as (w1 & Hrun & Hc & Hce & _ & _ & Hfr).
    rewrite Hrun.
    destruct (IH w1) as (w2 & Hrun2 & Hc2 & Hfr2).
    exists w2. split; [exact Hrun2|]. split.
    + rewrite Hc2, Hc, Hce, (fields_of_agree this w w1 (Hfr _ Hthis)).
      rewrite <- app_assoc. reflexivity.
    + intros i Hi. rewrite Hfr2, Hfr; auto.
Qed.

Lemma withLatestFrom_returns (r : Revision) (this other : JAStream)
    (w : World) :
  r ≠ OptionsTs ->
  exists c w0,
    withLatestFrom_of r this other w = (Returned c, w0) /\
    self c = next_object w /\
    forall next w1,
      generator c next w1
      = (latest <- new_cell VUndefined ;;
         subscribe_of r other (fun x => write_cell latest x) ;;;
         generator this (fun y =>
           l <- read_last this ;;
           o <- read_cell latest ;;
           next (VArr [l; o]))) w1.
Proof.
  intros Hr. destruct r; [| |done];
    eexists _, _; (split; [reflexivity|]); simpl; split; reflexivity.
Qed.

Lemma last_default_irrelevant {A} (ys : list A) (d d' : A) :
  ys ≠ [] -> List.last ys d = List.last ys d'.
Proof.
  destruct ys as [|y ys]; [done|]. intros _.
  by rewrite !last_cons_default.
Qed.

Lemma fold_track_last_or (r : Revision) (s : JAStream) (ys : list Value)
    (f : Fields) :
  last (fold_left (track_of r s) ys f) = List.last ys (last f).
Proof.
  destruct ys as [|y ys]; [reflexivity|].
  rewrite fold_track_last by done. unfold final.
  by apply last_default_irrelevant.
Qed.

(** C8. In the revisions that have [withLatestFrom] ([src/index.js] and
    [src/src/index.ts]), the producer of [this.withLatestFrom(otherStream)]
    first subscribes to [otherStream] with a listener that stores each
    value in the private variable [latest], and then runs the producer of
    [this] with a callback that emits the pair [[this.last, latest]].
    With synchronous producers ([this] emits [xs], [otherStream] emits
    [ys]), a subscription records one pair per element of [xs]: the first
    component is the [last] field of [this] as the inner subscription left
    it (untouched when the two streams are different objects: the primary
    emissions go through the generator and never write it), the second is
    the last element of [ys], [undefined] when [otherStream] emitted
    nothing. *)
Theorem withLatestFrom_pairs_last_with_latest (r : Revision)
    (this other : JAStream) (xs ys : list Value) (w : World) :
  r ≠ OptionsTs ->
  emits (generator this) xs -> emits (generator other) ys ->
  (self this < next_object w)%nat -> (self other < next_object w)%nat ->
  exists c w0,
    withLatestFrom_of r this other w = (Returned c, w0) /\
    (forall next w1,
       generator c next w1
       = (latest <- new_cell VUndefined ;;
          subscribe_of r other (fun x => write_cell latest x) ;;;
          generator this (fun y =>
            l <- read_last this ;;
            o <- read_cell latest ;;
            next (VArr [l; o]))) w1) /\
    forall w1, exists w2,
      subscribe_of r c mockListener w1 = (Returned tt, w2) /\
      calls w2
      = calls w1
        ++ List.map
             (fun _ =>
                VArr [if decide (self this = self other)
                      then List.last ys (last (fields_of w1 this))
                      else last (fields_of w1 this);
                      final ys]) xs /\
      (ys = [] ->
       calls w2
       = calls w1
         ++ List.map (fun _ => VArr [last (fields_of w1 this); VUndefined])
                     xs) /\
      getLast_of r this w2
      = (Returned (if decide (self this = self other)
                   then List.last ys (last (fields_of w1 this))
                   else last (fields_of w1 this)), w2) /\
      getLast_of r other w2
      = (Returned (List.last ys (last (fields_of w1 other))), w2).
Proof.
  intros Hr Hxs Hys Hthis Hother.
  destruct (withLatestFrom_returns r this other w Hr)
    as (c & w0 & Hnew & Hc & Hgen).
  exists c, w0. split; [exact Hnew|]. split; [exact Hgen|]. intros w1.
  rewrite subscribe_of_unfold, Hgen.
  unfold bind at 1, new_cell at 1.
  set (latest := next_cell w1).
  set (w1a := mkWorld _ _ _ _ _).
  unfold bind at 1. rewrite subscribe_of_unfold, Hys.
  destruct (latest_loop r other latest ys VUndefined w1a)
    as (wmid & Hrun1 & Hcalls1 & Hcell & _ & Hfo & Hfr1).
  { apply lookup_insert_eq. }
  rewrite Hrun1, Hxs.
  destruct (pair_loop [self c] (emission_of r c mockListener) this latest xs
              (touches_emission r c [] _ touches_mockListener)) with (w := wmid)
    as (w2 & Hrun2 & Hcalls2 & Hfr2).
  { intros Hin%list_elem_of_singleton. lia. }
  assert (Hfirst : last (fields_of wmid this)
                   = if decide (self this = self other)
                     then List.last ys (last (fields_of w1 this))
                     else last (fields_of w1 this)).
  { destruct (decide (self this = self other)) as [Heq|Hne].
    - transitivity (last (fields_of wmid other)).
      { unfold fields_of. by rewrite Heq. }
      rewrite Hfo, fold_track_last_or. unfold fields_of; simpl.
      by rewrite Heq.
    - by rewrite (fields_of_agree this w1a wmid (Hfr1 _ Hne)). }
  assert (Hpairs : calls w2
                   = calls w1
                     ++ List.map
                          (fun _ =>
                             VArr [if decide (self this = self other)
                                   then List.last ys (last (fields_of w1 this))
                                   else last (fields_of w1 this);
                                   final ys]) xs).
  { rewrite Hcalls2, Hcalls1, Hcell, Hfirst. reflexivity. }
  exists w2. split; [exact Hrun2|]. split; [exact Hpairs|].
  assert (Hkeep : forall s, (self s < next_object w)%nat ->
                            fields_of w2 s = fields_of wmid s).
  { intros s Hs. apply fields_of_agree, Hfr2.
    intros Hin%list_elem_of_singleton. lia. }
  split; [|split].
  - intros ->. rewrite Hpairs. destruct (decide _); reflexivity.
  - rewrite getLast_of_fields, (Hkeep this Hthis), Hfirst. reflexivity.
  - rewrite getLast_of_fields, (Hkeep other Hother), Hfo, fold_track_last_or.
    reflexivity.
Qed.

(** ** The statements at the streams of the examples *)

(** [from([1,2]).withLatestFrom(from(['a','b']))] in [src/src/index.ts]:
    two pairs, both [[undefined, 'b']]. *)
Lemma withLatestFrom_pairs_last_with_latest_example :
  exists c w0 w2,
    Beta.withLatestFrom numbers letters two_streams = (Returned c, w0) /\
    Beta.subscribe c mockListener w0 = (Returned tt, w2) /\
    calls w2 = [VArr [VUndefined; VStr "b"]; VArr [VUndefined; VStr "b"]] /\
    Beta.getLast numbers w2 = (Returned VUndefined, w2) /\
    Beta.getLast letters w2 = (Returned (VStr "b"), w2).
Proof.
  destruct (withLatestFrom_pairs_last_with_latest BetaTs numbers letters
              (nums [1; 2]) [VStr "a"; VStr "b"] two_streams)
    as (c & w0 & Hnew & _ & Hsub).
  - discriminate.
  - intros next w. reflexivity.
  - intros next w. reflexivity.
  - vm_compute. lia.
  - vm_compute. lia.
  - destruct (Hsub w0) as (w2 & Hrun & Hcalls & _ & Hthis & Hother).
    change (Beta.withLatestFrom numbers letters two_streams
            = (Returned c, w0)) in Hnew.
    exists c, w0, w2. split; [exact Hnew|]. split; [exact Hrun|].
    assert (Hw0 : w0 = exec (Beta.withLatestFrom numbers letters) two_streams)
      by (unfold exec; rewrite Hnew; reflexivity).
    rewrite Hw0 in Hcalls, Hthis, Hother.
    split; [exact Hcalls|]. split; [exact Hthis | exact Hother].
Defined.

(** [merge(from([1,2]), from(['a','b']))] in [src/src/index.ts]: after one
    subscription to the merged stream, each input remembers its own last
    value and its own buffer. *)
Lemma merge_updates_every_input_example :
  exists m w0 w2,
    Beta.merge [numbers; letters] two_streams = (Returned m, w0) /\
    Beta.subscribe m mockListener w0 = (Returned tt, w2) /\
    Beta.getLast numbers w2 = (Returned (VNum 2), w2) /\
    Beta.getLast letters w2 = (Returned (VStr "b"), w2) /\
    Beta.getBuffer numbers w2 = (Returned [VNum 1; VNum 2], w2) /\
    Beta.getBuffer letters w2 = (Returned [VStr "a"; VStr "b"], w2).
Proof.
  destruct (merge_updates_every_input BetaTs [numbers; letters]
              [nums [1; 2]; [VStr "a"; VStr "b"]] two_streams)
    as (m & w0 & Hnew & Hsub).
  - constructor; [intros next w; reflexivity|].
    constructor; [intros next w; reflexivity|]. constructor.
  - apply (bool_decide_unpack _). vm_compute. reflexivity.
  - repeat constructor; vm_compute; lia.
  - destruct (Hsub w0) as (w2 & Hrun & Hin).
    change (Beta.merge [numbers; letters] two_streams = (Returned m, w0))
      in Hnew.
    assert (Hw0 : w0 = exec (Beta.merge [numbers; letters]) two_streams)
      by (unfold exec; rewrite Hnew; reflexivity).
    destruct (Hin 0%nat numbers (nums [1; 2]) eq_refl eq_refl)
      as (_ & Hl0 & _ & _ & Hb0).
    destruct (Hin 1%nat letters [VStr "a"; VStr "b"] eq_refl eq_refl)
      as (_ & Hl1 & _ & _ & Hb1).
    exists m, w0, w2. split; [exact Hnew|]. split; [exact Hrun|].
    split; [apply Hl0; discriminate|]. split; [apply Hl1; discriminate|].
    rewrite Hw0 in Hb0, Hb1. split.
    + apply Hb0; [reflexivity | vm_compute; lia].
    + apply Hb1; [reflexivity | vm_compute; lia].
Defined.

(** A stream with [{useBuffer: true, bufferSize: 0}] over 1, 2, 3. *)
Lemma zero_capacity_buffer_keeps_everything_example :
  exists s w0 w1,
    new_JAStream three_values (Some (mkOptions true 0)) empty_world
    = (Returned s, w0) /\
    Options.subscribe s mockListener w0 = (Returned tt, w1) /\
    Options.getBuffer s w1 = (Returned (nums [1; 2; 3]), w1) /\
    bufferSize s < Z.of_nat (length (buffer (fields_of w1 s))).
Proof.
  destruct (zero_capacity_buffer_keeps_everything three_values
              (nums [1; 2; 3]) empty_world)
    as (s & w0 & w1 & w2 & Hnew & _ & _ & _ & Hsub & Hget & _ & _ & Hlong).
  - intros next w. reflexivity.
  - exists s, w0, w1. split; [exact Hnew|]. split; [exact Hsub|].
    split; [exact Hget|]. apply Hlong. discriminate.
Defined.

(** The README stream with [{useBuffer: true, bufferSize: 3}], subscribed
    once: the buffer ends as [1, 5, 5]. *)
Lemma buffer_holds_most_recent_example :
  exists w',
    Options.subscribe buffered mockListener one_stream = (Returned tt, w') /\
    Options.getBuffer buffered w' = (Returned (nums [1; 5; 5]), w') /\
    (length (buffer (fields_of w' buffered)) <= 3)%nat.
Proof.
  destruct (proj1 (proj2 buffer_holds_most_recent) buffered
              (nums [2; 4; 1; 5; 5]) [] one_stream)
    as (w' & Hsub & Hget & _ & Hlen & _).
  - reflexivity.
  - simpl. lia.
  - intros next w. reflexivity.
  - vm_compute. reflexivity.
  - exists w'. split; [exact Hsub|]. split; [exact Hget | exact Hlen].
Defined.

(** One emission of 7 on the README stream. *)
Lemma emission_updates_fields_before_listener_example :
  exists w1,
    Options.emission buffered mockListener (VNum 7) one_stream
    = mockListener (VNum 7) w1 /\
    calls w1 = [] /\
    Options.getLast buffered w1 = (Returned (VNum 7), w1) /\
    (exists older,
       Options.getBuffer buffered w1 = (Returned (older ++ [VNum 7]), w1)) /\
    (length (buffer (fields_of w1 buffered)) <= 3)%nat.
Proof.
  destruct (emission_updates_fields_before_listener buffered mockListener
              (VNum 7) one_stream)
    as (_ & w1 & Hrun & Hcalls & Hlast & _ & Hends & Hlen).
  exists w1. split; [exact Hrun|]. split; [exact Hcalls|].
  split; [exact Hlast|]. split.
  - apply Hends; [reflexivity | simpl; lia].
  - apply Hlen; [reflexivity | simpl; lia].
Defined.

(** [getBuffer()] on a stream built by [from] and on the README stream. *)
Lemma getBuffer_throws_iff_buffer_disabled_example :
  (exists message,
     Options.getBuffer numbers two_streams = (Thrown message, two_streams)) /\
  Options.getBuffer buffered one_stream = (Returned [], one_stream).
Proof.
  split.
  - apply (proj1 getBuffer_throws_iff_buffer_disabled numbers two_streams).
    reflexivity.
  - apply (proj1 (proj2 getBuffer_throws_iff_buffer_disabled)
             buffered one_stream).
    reflexivity.
Defined.

(** * Further properties of the code *)

(** ** [map] *)

(** X1. For every mapper [mapFn] and sequence [S], in each revision,
    subscribing to [from(S).map(mapFn)] runs the listener once per element
    of [S], with the images in order. *)
Theorem map_emits_images (r : Revision) (mapFn : Mapper) (S : list Value)
    (w : World) :
  exists m w0,
    (s <- Op.from S ;; Op.map s mapFn) w = (Returned m, w0) /\
    (forall listener w1,
       subscribe_of r m listener w1
       = forEach (List.map mapFn S) (emission_of r m listener) w1) /\
    (forall w1, exists w2,
       subscribe_of r m mockListener w1 = (Returned tt, w2) /\
       calls w2 = calls w1 ++ List.map mapFn S /\
       length (calls w2) = (length (calls w1) + length S)%nat).
Proof.
  destruct (from_returns S w) as (s & w0 & Hnew & _ & _ & Hxs).
  destruct (map_returns s mapFn S w0 Hxs) as (m & w1 & Hm & _ & _ & Hms).
  exists m, w1. split; [|split].
  - unfold bind. rewrite Hnew. exact Hm.
  - intros listener w2. rewrite subscribe_of_unfold. apply Hms.
  - intros w2.
    destruct (subscribe_emits_mock r m _ Hms w2) as (w3 & Hrun & Hc).
    exists w3. split; [exact Hrun|]. split; [exact Hc|].
    rewrite Hc, length_app, length_map. reflexivity.
Qed.

(** ** [getLast] *)

Lemma final_fold_track (r : Revision) (s : JAStream) (xs : list Value)
    (f : Fields) :
  last f = VUndefined -> last (fold_left (track_of r s) xs f) = final xs.
Proof.
  intros Hf. destruct xs as [|x xs]; [exact Hf|].
  by apply fold_track_last.
Qed.

(** X2. In each revision, [getLast()] on a stream that was just
    constructed returns [undefined]; after one [subscribe] on a
    synchronous producer it returns the last value the producer emitted,
    and still [undefined] when the producer emitted nothing. *)
Theorem getLast_returns_last_emitted (r : Revision) (g : DataGenerator)
    (options : option JAStreamOptions) (xs : list Value) (w : World) :
  emits g xs ->
  exists s w0 w1,
    new_JAStream g options w = (Returned s, w0) /\
    getLast_of r s w0 = (Returned VUndefined, w0) /\
    subscribe_of r s mockListener w0 = (Returned tt, w1) /\
    getLast_of r s w1 = (Returned (final xs), w1).
Proof.
  intros Hxs.
  destruct (new_JAStream_returns g options w)
    as (s & w0 & Hnew & _ & Hg & _ & _ & Hf & _).
  rewrite <- Hg in Hxs.
  destruct (subscribe_emits_fields r s xs Hxs w0) as (w1 & Hrun & _ & Hf1 & _).
  exists s, w0, w1. split; [exact Hnew|].
  rewrite !getLast_of_fields, Hf1, Hf.
  split; [reflexivity|]. split; [exact Hrun|].
  by rewrite final_fold_track.
Qed.

Lemma getLast_returns_last_emitted_example :
  exists s w0 w1,
    new_JAStream three_values None empty_world = (Returned s, w0) /\
    Beta.getLast s w0 = (Returned VUndefined, w0) /\
    Beta.subscribe s mockListener w0 = (Returned tt, w1) /\
    Beta.getLast s w1 = (Returned (VNum 3), w1).
Proof.
  apply (getLast_returns_last_emitted BetaTs three_values None
           (nums [1; 2; 3]) empty_world).
  intros next w. reflexivity.
Defined.

(** ** Derived streams and their parent *)

Lemma reduce_returns (this : JAStream) (fn : Reducer) (V : Value)
    (w : World) :
  exists red w0,
    Op.reduce this fn V w = (Returned red, w0) /\
    self red = next_object w /\
    forall next w1,
      generator red next w1
      = (acc <- new_cell V ;;
         generator this (fun x =>
           a <- read_cell acc ;;
           write_cell acc (fn a x) ;;;
           a' <- read_cell acc ;;
           next a')) w1.
Proof. eexists _, _. split; [reflexivity|]. simpl. split; reflexivity. Qed.

Lemma not_elem_of_self (a b : nat) : (a < b)%nat -> a ∉ [b].
Proof. intros Hlt Hin%list_elem_of_singleton. lia. Qed.

(** X3. In each revision, [filter], [map] and [reduce] run the producer of
    their parent directly, not its [subscribe]: a subscription to the
    derived stream leaves the fields of the parent ([last], [buffer]) as
    they were, whatever the parent emits. *)
Theorem derived_subscription_leaves_parent_fields (r : Revision)
    (this : JAStream) (pred : Predicate) (mapFn : Mapper) (fn : Reducer)
    (V : Value) (xs : list Value) (w : World) :
  emits (generator this) xs ->
  (self this < next_object w)%nat ->
  (exists f w0,
     Op.filter this pred w = (Returned f, w0) /\
     forall w1, exists w2,
       subscribe_of r f mockListener w1 = (Returned tt, w2) /\
       calls w2 = calls w1 ++ List.filter pred xs /\
       fields_of w2 this = fields_of w1 this) /\
  (exists m w0,
     Op.map this mapFn w = (Returned m, w0) /\
     forall w1, exists w2,
       subscribe_of r m mockListener w1 = (Returned tt, w2) /\
       calls w2 = calls w1 ++ List.map mapFn xs /\
       fields_of w2 this = fields_of w1 this) /\
  (exists red w0,
     Op.reduce this fn V w = (Returned red, w0) /\
     forall w1, exists w2,
       subscribe_of r red mockListener w1 = (Returned tt, w2) /\
       calls w2 = calls w1 ++ scan fn V xs /\
       fields_of w2 this = fields_of w1 this).
Proof.
  intros Hxs Hthis. split; [|split].
  - destruct (filter_returns this pred xs w Hxs) as (f & w0 & Hf & Hid & _ & Hfs).
    exists f, w0. split; [exact Hf|]. intros w1.
    destruct (subscribe_emits_fields r f _ Hfs w1)
      as (w2 & Hrun & Hc & _ & _ & Hfr).
    exists w2. split; [exact Hrun|]. split; [exact Hc|].
    apply fields_of_agree, Hfr. lia.
  - destruct (map_returns this mapFn xs w Hxs) as (m & w0 & Hm & Hid & _ & Hms).
    exists m, w0. split; [exact Hm|]. intros w1.
    destruct (subscribe_emits_fields r m _ Hms w1)
      as (w2 & Hrun & Hc & _ & _ & Hfr).
    exists w2. split; [exact Hrun|]. split; [exact Hc|].
    apply fields_of_agree, Hfr. lia.
  - destruct (reduce_returns this fn V w) as (red & w0 & Hred & Hid & Hgen).
    exists red, w0. split; [exact Hred|]. intros w1.
    rewrite subscribe_of_unfold, Hgen.
    destruct (reduce_generator_touches fn V this xs [self red]
                (emission_of r red mockListener) Hxs
                (touches_emission r red [] _ touches_mockListener) w1)
      as (w2 & Hrun & Hc & _ & Hfr).
    exists w2. split; [exact Hrun|]. split; [exact Hc|].
    apply fields_of_agree, Hfr, not_elem_of_self. lia.
Qed.

Lemma derived_subscription_leaves_parent_fields_example :
  exists f w0 w2,
    Op.filter numbers is_odd two_streams = (Returned f, w0) /\
    Beta.subscribe f mockListener w0 = (Returned tt, w2) /\
    calls w2 = [VNum 1] /\
    Beta.getLast numbers w2 = (Returned VUndefined, w2).
Proof.
  destruct (derived_subscription_leaves_parent_fields BetaTs numbers is_odd
              double add (VNum 0) (nums [1; 2]) two_streams)
    as ((f & w0 & Hf & Hsub) & _).
  - intros next w. reflexivity.
  - vm_compute. lia.
  - destruct (Hsub w0) as (w2 & Hrun & Hc & Hkeep).
    assert (Hw0 : w0 = exec (Op.filter numbers is_odd) two_streams)
      by (unfold exec; rewrite Hf; reflexivity).
    exists f, w0, w2. split; [exact Hf|]. split; [exact Hrun|]. split.
    + rewrite Hc, Hw0. reflexivity.
    + unfold Beta.getLast, read_last. rewrite Hkeep, Hw0. reflexivity.
Defined.

(** X4. In the revision with options, the operators construct their
    result without options, so that buffering is never inherited: on a
    stream returned by [from], [filter], [map], [reduce] or [merge],
    [getBuffer()] throws, also when the parent itself was constructed with
    [useBuffer: true]. *)
Theorem derived_streams_have_no_buffer (this : JAStream) (pred : Predicate)
    (mapFn : Mapper) (fn : Reducer) (V : Value) (xs : list Value)
    (streams : list JAStream) (w : World) :
  (exists s w0 message,
     Op.from xs w = (Returned s, w0) /\
     Options.getBuffer s w0 = (Thrown message, w0)) /\
  (exists s w0 message,
     Op.filter this pred w = (Returned s, w0) /\
     Options.getBuffer s w0 = (Thrown message, w0)) /\
  (exists s w0 message,
     Op.map this mapFn w = (Returned s, w0) /\
     Options.getBuffer s w0 = (Thrown message, w0)) /\
  (exists s w0 message,
     Op.reduce this fn V w = (Returned s, w0) /\
     Options.getBuffer s w0 = (Thrown message, w0)) /\
  (exists s w0 message,
     Options.merge streams w = (Returned s, w0) /\
     Options.getBuffer s w0 = (Thrown message, w0)).
Proof.
  repeat split; eexists _, _, _; split; reflexivity.
Qed.

(** ** Chains of operators *)

(** X5. In each revision, the operators compose over any synchronous
    producer: subscribing to [this.filter(pred).map(mapFn).reduce(fn, V)]
    records the running folds of the images of the values that satisfy
    [pred]. *)
Theorem operators_chain (r : Revision) (this : JAStream) (pred : Predicate)
    (mapFn : Mapper) (fn : Reducer) (V : Value) (xs : list Value)
    (w : World) :
  emits (generator this) xs ->
  exists red w0,
    (f <- Op.filter this pred ;; m <- Op.map f mapFn ;; Op.reduce m fn V) w
    = (Returned red, w0) /\
    forall w1, exists w2,
      subscribe_of r red mockListener w1 = (Returned tt, w2) /\
      calls w2
      = calls w1 ++ scan fn V (List.map mapFn (List.filter pred xs)).
Proof.
  intros Hxs.
  destruct (filter_returns this pred xs w Hxs) as (f & w0 & Hf & _ & _ & Hfs).
  destruct (map_returns f mapFn _ w0 Hfs) as (m & w1 & Hm & _ & _ & Hms).
  destruct (reduce_returns m fn V w1) as (red & w2 & Hred & _ & Hgen).
  exists red, w2. split.
  { unfold bind. rewrite Hf, Hm. exact Hred. }
  intros w3. rewrite subscribe_of_unfold, Hgen.
  destruct (reduce_generator_touches fn V m _ [self red]
              (emission_of r red mockListener) Hms
              (touches_emission r red [] _ touches_mockListener) w3)
    as (w4 & Hrun & Hc & _).
  exists w4. split; [exact Hrun | exact Hc].
Qed.

Lemma operators_chain_example :
  exists red w0 w2,
    (f <- Op.filter three_stream is_odd ;; m <- Op.map f double ;;
     Op.reduce m add (VNum 0)) three_world = (Returned red, w0) /\
    Dist.subscribe red mockListener w0 = (Returned tt, w2) /\
    calls w2 = [VNum 2; VNum 8].
Proof.
  destruct (operators_chain DistJs three_stream is_odd double add (VNum 0)
              (nums [1; 2; 3]) three_world)
    as (red & w0 & Hred & Hsub).
  - intros next w. reflexivity.
  - destruct (Hsub w0) as (w2 & Hrun & Hc).
    assert (Hw0 : calls w0 = []).
    { replace w0 with (exec (f <- Op.filter three_stream is_odd ;;
                             m <- Op.map f double ;;
                             Op.reduce m add (VNum 0)) three_world)
        by (unfold exec; rewrite Hred; reflexivity).
      reflexivity. }
    exists red, w0, w2. split; [exact Hred|]. split; [exact Hrun|].
    rewrite Hc, Hw0. reflexivity.
Defined.

(** ** [reduce] and [getLast] *)

Lemma scan_final (fn : Reducer) (xs : list Value) :
  forall acc, xs ≠ [] -> final (scan fn acc xs) = fold_left fn xs acc.
Proof.
  induction xs as [|x xs IH]; intros acc Hne; [done|].
  destruct xs as [|y xs]; [reflexivity|].
  change (final (scan fn acc (x :: y :: xs)))
    with (List.last (fn acc x :: scan fn (fn acc x) (y :: xs)) VUndefined).
  rewrite last_cons_default.
  rewrite (last_default_irrelevant _ _ VUndefined) by done.
  apply (IH (fn acc x)). done.
Qed.

(** The fields of the stream whose emission callback is the [next] of a
    [reduce] loop. *)
Lemma reduce_loop_fields (r : Revision) (s : JAStream) (fn : Reducer)
    (ids : list nat) (k : Listener) (acc : nat) (xs : list Value) :
  touches ids k -> self s ∉ ids ->
  forall a w,
    cells w !! acc = Some a ->
    fields_of (exec (forEach xs (fun x =>
                 a <- read_cell acc ;;
                 write_cell acc (fn a x) ;;;
                 a' <- read_cell acc ;;
                 emission_of r s k a')) w) s
    = fold_left (track_of r s) (scan fn a xs) (fields_of w s).
Proof.
  intros Hk Hs. induction xs as [|x xs IH]; intros a w Ha; [reflexivity|].
  cbn [forEach scan fold_left]. unfold exec in *.
  unfold bind at 1 2 3 4. unfold read_cell at 1 2, write_cell at 1.
  cbn [fst snd cells]. rewrite Ha. cbn [default from_option id].
  rewrite lookup_insert_eq. cbn [default from_option id].
  set (w0 := mkWorld _ _ _ _ _).
  pose proof (emission_fields r s ids k (fn a x) w0 Hk Hs) as Hone.
  destruct (touches_emission r s ids k Hk (fn a x) w0)
    as (w1 & Hrun & _ & Hce & _).
  unfold exec in Hone. rewrite Hrun in *. cbn [snd] in Hone.
  rewrite (IH (fn a x)).
  - rewrite Hone. reflexivity.
  - rewrite Hce. apply lookup_insert_eq.
Qed.

(** X6. In each revision, after one [subscribe] on [from(S).reduce(R, V)]
    with a sequence [S] that is not empty, [getLast()] on the reduced
    stream returns the complete left fold of [R] over [S] from [V]. *)
Theorem reduce_last_is_complete_fold (r : Revision) (R : Reducer) (V : Value)
    (S : list Value) (w : World) :
  S ≠ [] ->
  exists red w0 w1,
    (s <- Op.from S ;; Op.reduce s R V) w = (Returned red, w0) /\
    getLast_of r red w0 = (Returned VUndefined, w0) /\
    subscribe_of r red mockListener w0 = (Returned tt, w1) /\
    getLast_of r red w1 = (Returned (fold_left R S V), w1).
Proof.
  intros Hne.
  destruct (from_returns S w) as (s & w0 & Hnew & _ & _ & Hxs).
  destruct (reduce_returns s R V w0) as (red & w1 & Hred & Hid & Hgen).
  assert (Hfresh : fields_of w1 red = fresh_fields).
  { unfold Op.reduce in Hred.
    destruct (new_JAStream_returns
                (fun next =>
                   acc <- new_cell V ;;
                   generator s (fun x =>
                     a <- read_cell acc ;;
                     write_cell acc (R a x) ;;;
                     a' <- read_cell acc ;;
                     next a')) None w0)
      as (red' & w1' & Hnew' & _ & _ & _ & _ & Hf & _).
    rewrite Hred in Hnew'. by inversion Hnew'; subst. }
  pose proof (reduce_loop_fields r red R [] mockListener (next_cell w1) S
                touches_mockListener (not_elem_of_nil _) V) as Hfields.
  destruct (reduce_generator_touches R V s S [self red]
              (emission_of r red mockListener) Hxs
              (touches_emission r red [] _ touches_mockListener) w1)
    as (w2 & Hrun & _).
  exists red, w1, w2. split.
  { unfold bind. rewrite Hnew. exact Hred. }
  rewrite !getLast_of_fields, Hfresh. split; [reflexivity|].
  rewrite subscribe_of_unfold, Hgen. split; [exact Hrun|].
  unfold bind at 1, new_cell at 1 in Hrun. rewrite Hxs in Hrun.
  match type of Hrun with forEach _ _ ?w0 = _ =>
    specialize (Hfields w0 (lookup_insert_eq _ _ _))
  end.
  unfold exec in Hfields. rewrite Hrun in Hfields. cbn [snd] in Hfields.
  rewrite Hfields, fold_track_last by (destruct S; done).
  by rewrite scan_final.
Qed.

Lemma reduce_last_is_complete_fold_example :
  exists red w0 w1,
    (s <- Op.from (nums [1; 2; 3]) ;; Op.reduce s add (VNum 0)) empty_world
    = (Returned red, w0) /\
    Beta.getLast red w0 = (Returned VUndefined, w0) /\
    Beta.subscribe red mockListener w0 = (Returned tt, w1) /\
    Beta.getLast red w1 = (Returned (VNum 6), w1).
Proof.
  apply (reduce_last_is_complete_fold BetaTs add (VNum 0) (nums [1; 2; 3])
           empty_world).
  discriminate.
Defined.

(** ** The buffer of [src/src/index.ts] *)

(** X7. In [src/src/index.ts] every stream has a buffer and [subscribe]
    keeps [slice(0, 10)] of it: after a subscription the buffer is the
    first ten values of its old contents followed by the emissions, so the
    values that are dropped are the most recent ones, while [getLast()]
    still follows the emissions. *)
Theorem beta_buffer_keeps_oldest_ten (s : JAStream) (xs : list Value)
    (w : World) :
  emits (generator s) xs ->
  (length (buffer (fields_of w s)) <= 10)%nat ->
  exists w',
    Beta.subscribe s mockListener w = (Returned tt, w') /\
    Beta.getBuffer s w'
    = (Returned (take 10 (buffer (fields_of w s) ++ xs)), w') /\
    (exists dropped,
       buffer (fields_of w s) ++ xs = buffer (fields_of w' s) ++ dropped) /\
    (length (buffer (fields_of w' s)) <= 10)%nat /\
    Beta.getLast s w'
    = (Returned (List.last xs (last (fields_of w s))), w').
Proof.
  intros Hxs Hlen.
  destruct (subscribe_emits_fields BetaTs s xs Hxs w)
    as (w' & Hrun & _ & Hf & _).
  simpl in Hrun, Hf.
  assert (Hb : buffer (fields_of w' s)
               = take 10 (buffer (fields_of w s) ++ xs))
    by (rewrite Hf; by apply fold_track_buffer_beta).
  exists w'. split; [exact Hrun|]. split.
  { unfold Beta.getBuffer, read_buffer. by rewrite Hb. }
  split; [|split].
  - exists (drop 10 (buffer (fields_of w s) ++ xs)).
    rewrite Hb. symmetry. apply take_drop.
  - rewrite Hb, length_take. lia.
  - unfold Beta.getLast, read_last. rewrite Hf.
    by rewrite (fold_track_last_or BetaTs).
Qed.

Lemma beta_buffer_keeps_oldest_ten_example :
  exists w',
    Beta.subscribe fifteen_stream mockListener fifteen_world
    = (Returned tt, w') /\
    Beta.getBuffer fifteen_stream w'
    = (Returned (nums [1; 2; 3; 4; 5; 6; 7; 8; 9; 10]), w') /\
    Beta.getLast fifteen_stream w' = (Returned (VNum 15), w').
Proof.
  destruct (beta_buffer_keeps_oldest_ten fifteen_stream
              (nums [1;2;3;4;5;6;7;8;9;10;11;12;13;14;15]) fifteen_world)
    as (w' & Hrun & Hbuf & _ & _ & Hlast).
  - intros next w. reflexivity.
  - vm_compute. lia.
  - exists w'. split; [exact Hrun|]. split; [exact Hbuf | exact Hlast].
Defined.

(** ** The buffer of the revision with options, for any [bufferSize] *)

Lemma relative_index_bounds (i len : Z) :
  0 <= len -> 0 <= relative_index i len <= len.
Proof. unfold relative_index. destruct (Z.ltb_spec i 0); lia. Qed.

(** [slice(start)] returns what is left of the array from some index on. *)
Lemma slice_open_drop {A} (l : list A) (start : Z) :
  slice l start None
  = drop (Z.to_nat (relative_index start (Z.of_nat (length l)))) l.
Proof.
  unfold slice.
  pose proof (relative_index_bounds start (Z.of_nat (length l))
                (Nat2Z.is_nonneg _)) as Hk.
  apply take_ge. rewrite length_drop. lia.
Qed.

Lemma slice_drop_front {A} (l : list A) (k : Z) :
  k < 0 -> slice l (k * -1) None = drop (Z.to_nat (- k)) l.
Proof.
  intros Hk. rewrite slice_open_drop. unfold relative_index.
  destruct (Z.ltb_spec (k * -1) 0) as [|_]; [lia|].
  destruct (Z.le_gt_cases (- k) (Z.of_nat (length l))) as [Hle|Hgt].
  - f_equal. lia.
  - rewrite !drop_ge by lia. reflexivity.
Qed.

Lemma fold_track_buffer_negative (s : JAStream) (xs : list Value)
    (f : Fields) :
  useBuffer s = true -> bufferSize s < 0 -> buffer f = [] ->
  buffer (fold_left (Options.track s) xs f) = [].
Proof.
  intros Hon Hk. revert f. induction xs as [|x xs IH]; intros f Hf; simpl.
  - exact Hf.
  - apply IH. unfold Options.track. rewrite Hon, Hf; simpl.
    rewrite slice_drop_front by done. apply drop_ge. simpl. lia.
Qed.

Lemma fold_track_buffer_suffix (s : JAStream) (xs : list Value)
    (f : Fields) :
  useBuffer s = true ->
  exists evicted,
    buffer f ++ xs = evicted ++ buffer (fold_left (Options.track s) xs f).
Proof.
  intros Hon. induction xs as [|x xs IH] using rev_ind.
  - exists []. simpl. by rewrite app_nil_r.
  - destruct IH as (evicted & IH). rewrite fold_left_app. simpl.
    set (F := fold_left (Options.track s) xs f) in *.
    unfold Options.track. rewrite Hon; simpl. rewrite slice_open_drop.
    set (n := Z.to_nat _).
    exists (evicted ++ take n (buffer F ++ [x])).
    rewrite <- app_assoc, take_drop, !app_assoc. by rewrite IH.
Qed.

(** X8. In the revision with options, a stream constructed with
    [useBuffer: true] and a negative [bufferSize] stores nothing:
    [slice(-bufferSize)] then drops values from the front after every
    push, so a buffer that is empty stays empty whatever is emitted;
    [getBuffer()] does not throw and returns [[]], and [getLast()] still
    follows the emissions. *)
Theorem negative_capacity_buffer_stays_empty (s : JAStream)
    (xs : list Value) (w : World) :
  useBuffer s = true -> bufferSize s < 0 ->
  emits (generator s) xs ->
  buffer (fields_of w s) = [] ->
  exists w',
    Options.subscribe s mockListener w = (Returned tt, w') /\
    calls w' = calls w ++ xs /\
    Options.getBuffer s w' = (Returned [], w') /\
    Options.getLast s w'
    = (Returned (List.last xs (last (fields_of w s))), w').
Proof.
  intros Hon Hk Hxs Hempty.
  destruct (subscribe_emits_fields OptionsTs s xs Hxs w)
    as (w' & Hrun & Hc & Hf & _).
  simpl in Hrun, Hf.
  exists w'. split; [exact Hrun|]. split; [exact Hc|]. split.
  - unfold Options.getBuffer, read_buffer. rewrite Hon, Hf.
    by rewrite fold_track_buffer_negative.
  - unfold Options.getLast, read_last. rewrite Hf.
    by rewrite (fold_track_last_or OptionsTs).
Qed.

Lemma negative_capacity_buffer_stays_empty_example :
  new_JAStream three_values (Some (mkOptions true (-1))) empty_world
  = (Returned negative, negative_world) /\
  exists w',
    Options.subscribe negative mockListener negative_world
    = (Returned tt, w') /\
    calls w' = nums [1; 2; 3] /\
    Options.getBuffer negative w' = (Returned [], w') /\
    Options.getLast negative w' = (Returned (VNum 3), w').
Proof.
  split; [reflexivity|].
  apply (negative_capacity_buffer_stays_empty negative (nums [1; 2; 3])
           negative_world).
  - reflexivity.
  - simpl. lia.
  - intros next w. reflexivity.
  - reflexivity.
Defined.

(** X9. In the revision with options, whatever the integer [bufferSize],
    a subscription on a stream with [useBuffer: true] leaves in the buffer
    an end piece of its old contents followed by the emissions: values
    leave the buffer from the front only, and what remains is in emission
    order. *)
Theorem buffer_is_end_of_history (s : JAStream) (xs : list Value)
    (w : World) :
  useBuffer s = true ->
  emits (generator s) xs ->
  exists w' kept evicted,
    Options.subscribe s mockListener w = (Returned tt, w') /\
    Options.getBuffer s w' = (Returned kept, w') /\
    buffer (fields_of w s) ++ xs = evicted ++ kept.
Proof.
  intros Hon Hxs.
  destruct (subscribe_emits_fields OptionsTs s xs Hxs w)
    as (w' & Hrun & _ & Hf & _).
  simpl in Hrun, Hf.
  destruct (fold_track_buffer_suffix s xs (fields_of w s) Hon)
    as (evicted & Hev).
  exists w', (buffer (fields_of w' s)), evicted.
  split; [exact Hrun|]. split.
  - unfold Options.getBuffer, read_buffer. by rewrite Hon.
  - by rewrite Hf.
Qed.

Lemma buffer_is_end_of_history_example :
  exists w' kept evicted,
    Options.subscribe negative mockListener negative_world
    = (Returned tt, w') /\
    Options.getBuffer negative w' = (Returned kept, w') /\
    nums [1; 2; 3] = evicted ++ kept.
Proof.
  apply (buffer_is_end_of_history negative (nums [1; 2; 3]) negative_world).
  - reflexivity.
  - intros next w. reflexivity.
Defined.

(** X10. In the revision with options, after a subscription that
    delivered at least one value to a stream with [useBuffer: true] and
    [bufferSize >= 1], the buffer ends with the value that [getLast()]
    returns; with [bufferSize: 1], [getBuffer()] is exactly that one
    value. *)
Theorem buffer_ends_with_last (s : JAStream) (xs : list Value) (w : World) :
  useBuffer s = true -> 1 <= bufferSize s ->
  emits (generator s) xs -> xs ≠ [] ->
  exists w' older,
    Options.subscribe s mockListener w = (Returned tt, w') /\
    Options.getLast s w' = (Returned (final xs), w') /\
    Options.getBuffer s w' = (Returned (older ++ [final xs]), w') /\
    (bufferSize s = 1 -> older = []).
Proof.
  intros Hon Hk Hxs Hne.
  destruct (subscribe_emits_fields OptionsTs s xs Hxs w)
    as (w' & Hrun & _ & Hf & _).
  simpl in Hrun, Hf.
  destruct xs as [|x xs _] using rev_ind; [done|].
  rewrite fold_left_app in Hf. simpl in Hf.
  set (F := fold_left (Options.track s) xs (fields_of w s)) in *.
  assert (Hfin : final (xs ++ [x]) = x)
    by (unfold final; apply List.last_last).
  assert (Hb : buffer (fields_of w' s)
               = lastn (Z.to_nat (bufferSize s)) (buffer F ++ [x])).
  { rewrite Hf. unfold Options.track. rewrite Hon; simpl.
    by apply slice_last_n. }
  exists w', (drop (length (buffer F) + 1 - Z.to_nat (bufferSize s))
                   (buffer F)).
  split; [exact Hrun|]. rewrite Hfin. split; [|split].
  - unfold Options.getLast, read_last. by rewrite Hf.
  - unfold Options.getBuffer, read_buffer. rewrite Hon, Hb. f_equal. f_equal.
    unfold lastn. rewrite length_app; simpl. apply drop_app_le. lia.
  - intros Hone. apply drop_ge. lia.
Qed.

Lemma buffer_ends_with_last_example :
  exists w',
    Options.subscribe single mockListener single_world = (Returned tt, w') /\
    Options.getLast single w' = (Returned (VNum 3), w') /\
    Options.getBuffer single w' = (Returned [VNum 3], w').
Proof.
  destruct (buffer_ends_with_last single (nums [1; 2; 3]) single_world)
    as (w' & older & Hrun & Hlast & Hbuf & Hone).
  - reflexivity.
  - simpl. lia.
  - intros next w. reflexivity.
  - discriminate.
  - rewrite (Hone eq_refl) in Hbuf.
    exists w'. split; [exact Hrun|]. split; [exact Hlast | exact Hbuf].
Defined.

(** ** A listener that throws *)

Lemma fails_on_failing_on (bad : Value -> bool) (message : string) :
  fails_on bad message [] (failing_on bad message).
Proof.
  intros x w. unfold failing_on, throw, mockListener.
  destruct (bad x); eexists; repeat split; reflexivity.
Qed.

Lemma fails_on_emission (r : Revision) (s : JAStream) (bad : Value -> bool)
    (message : string) (ids : list nat) (k : Listener) :
  fails_on bad message ids k ->
  fails_on bad message (self s :: ids) (emission_of r s k).
Proof.
  intros Hk x w. rewrite emission_of_run.
  destruct (Hk x (set_fields s (track_of r s (fields_of w s) x) w))
    as (w' & Hrun & Hcalls & Hfr).
  exists w'. split; [exact Hrun|]. split; [exact Hcalls|].
  intros i Hi. rewrite Hfr.
  - apply objects_set_fields_ne. by intros ->; apply Hi; left.
  - intros Hin. apply Hi. by right.
Qed.

(** The fields of [s] are written before the listener runs, so they are
    written also when it throws. *)
Lemma emission_fails_fields (r : Revision) (s : JAStream)
    (bad : Value -> bool) (message : string) (ids : list nat) (k : Listener)
    (x : Value) (w : World) :
  fails_on bad message ids k -> self s ∉ ids ->
  fields_of (exec (emission_of r s k x) w) s
  = track_of r s (fields_of w s) x.
Proof.
  intros Hk Hs. unfold exec. rewrite emission_of_run.
  destruct (Hk x (set_fields s (track_of r s (fields_of w s) x) w))
    as (w' & Hrun & _ & Hfr).
  rewrite Hrun; simpl.
  rewrite (fields_of_agree s _ w' (Hfr _ Hs)).
  apply fields_of_set_fields.
Qed.

(** [forEach] stops at the first element on which the callback throws. *)
Lemma forEach_fails_abort (bad : Value -> bool) (message : string)
    (ids : list nat) (k : Listener) (pre : list Value) (x : Value)
    (post : list Value) :
  fails_on bad message ids k ->
  Forall (fun v => bad v = false) pre -> bad x = true ->
  forall w, exists w1,
    forEach (pre ++ x :: post) k w = (Thrown message, snd (k x w1)) /\
    calls (snd (k x w1)) = calls w ++ pre /\
    (forall i, i ∉ ids -> objects w1 !! i = objects w !! i) /\
    (forall i, i ∉ ids -> objects (snd (k x w1)) !! i = objects w !! i).
Proof.
  intros Hk Hpre Hx. induction Hpre as [|v pre Hv Hpre IH]; intros w.
  - exists w. destruct (Hk x w) as (w2 & Hrun & Hc & Hfr).
    rewrite Hx in Hrun, Hc. simpl. unfold bind. rewrite Hrun. simpl.
    rewrite app_nil_r. split; [reflexivity|]. split; [exact Hc|].
    split; [reflexivity | exact Hfr].
  - destruct (Hk v w) as (w0 & Hrun & Hc & Hfr).
    rewrite Hv in Hrun, Hc.
    destruct (IH w0) as (w1 & Hall & Hc1 & Hfr1 & Hfr2).
    exists w1. simpl. unfold bind. rewrite Hrun.
    split; [exact Hall|]. split.
    { rewrite Hc1, Hc, <- app_assoc. reflexivity. }
    split; intros i Hi.
    + rewrite Hfr1, Hfr; auto.
    + rewrite Hfr2, Hfr; auto.
Qed.

(** X11. In each revision, when the listener throws on some value of
    [from(S)], the [subscribe] call throws the same error at that point:
    the values before it have been delivered, those after it never are,
    and [getLast()] already returns the value on which the listener
    threw, because the fields are written before the listener is
    called. *)
Theorem throwing_listener_aborts_subscription (r : Revision)
    (bad : Value -> bool) (message : string) (pre : list Value) (x : Value)
    (post : list Value) (w : World) :
  Forall (fun v => bad v = false) pre -> bad x = true ->
  exists s w0,
    Op.from (pre ++ x :: post) w = (Returned s, w0) /\
    forall w1, exists w2,
      subscribe_of r s (failing_on bad message) w1 = (Thrown message, w2) /\
      calls w2 = calls w1 ++ pre /\
      getLast_of r s w2 = (Returned x, w2).
Proof.
  intros Hpre Hx.
  destruct (from_returns (pre ++ x :: post) w)
    as (s & w0 & Hnew & _ & _ & Hxs).
  exists s, w0. split; [exact Hnew|]. intros w1.
  rewrite subscribe_of_unfold, Hxs.
  destruct (forEach_fails_abort bad message [self s]
              (emission_of r s (failing_on bad message)) pre x post
              (fails_on_emission r s bad message [] _
                 (fails_on_failing_on bad message)) Hpre Hx w1)
    as (wa & Hall & Hc & _).
  eexists. split; [exact Hall|]. split; [exact Hc|].
  rewrite getLast_of_fields.
  pose proof (emission_fails_fields r s bad message [] _ x wa
                (fails_on_failing_on bad message) (not_elem_of_nil _)) as Hf.
  unfold exec in Hf. rewrite Hf, track_of_last. reflexivity.
Qed.

Lemma throwing_listener_aborts_subscription_example :
  exists s w0 w2,
    Op.from (nums [1; 2; 3]) empty_world = (Returned s, w0) /\
    Beta.subscribe s (failing_on is_two "two") w0 = (Thrown "two", w2) /\
    calls w2 = [VNum 1] /\
    Beta.getLast s w2 = (Returned (VNum 2), w2).
Proof.
  destruct (throwing_listener_aborts_subscription BetaTs is_two "two"
              [VNum 1] (VNum 2) [VNum 3] empty_world)
    as (s & w0 & Hnew & Hsub).
  - repeat constructor.
  - reflexivity.
  - destruct (Hsub w0) as (w2 & Hrun & Hc & Hlast).
    assert (Hw0 : calls w0 = []) by (inversion Hnew; reflexivity).
    exists s, w0, w2. split; [exact Hnew|]. split; [exact Hrun|].
    rewrite Hw0 in Hc. split; [exact Hc | exact Hlast].
Defined.

(** X12. In each revision, when the listener throws while the first input
    of [merge] is delivering, the merged [subscribe] throws the same
    error and the inputs after it are never subscribed: their producers
    do not run, nothing more is recorded, and the fields of every other
    stream object are left as they were. *)
Theorem throwing_listener_stops_merge (r : Revision) (bad : Value -> bool)
    (message : string) (a : JAStream) (rest : list JAStream)
    (pre : list Value) (x : Value) (post : list Value) (w : World) :
  emits (generator a) (pre ++ x :: post) ->
  Forall (fun v => bad v = false) pre -> bad x = true ->
  (self a < next_object w)%nat ->
  exists m w0,
    merge_of r (a :: rest) w = (Returned m, w0) /\
    forall w1, exists w2,
      subscribe_of r m (failing_on bad message) w1 = (Thrown message, w2) /\
      calls w2 = calls w1 ++ pre /\
      getLast_of r a w2 = (Returned x, w2) /\
      getLast_of r m w2 = (Returned x, w2) /\
      forall b, self b ≠ self a -> (self b < next_object w)%nat ->
                fields_of w2 b = fields_of w1 b.
Proof.
  intros Hxs Hpre Hx Ha.
  destruct (merge_returns r (a :: rest) w) as (m & w0 & Hnew & Hm & Hgen).
  exists m, w0. split; [exact Hnew|]. intros w1.
  rewrite subscribe_of_unfold, Hgen. cbn [forEach]. unfold bind.
  rewrite subscribe_of_unfold, Hxs.
  set (km := emission_of r m (failing_on bad message)).
  assert (Hkm : fails_on bad message [self m] km)
    by apply fails_on_emission, fails_on_failing_on.
  destruct (forEach_fails_abort bad message [self a; self m]
              (emission_of r a km) pre x post
              (fails_on_emission r a bad message _ _ Hkm) Hpre Hx w1)
    as (wa & Hall & Hc & _ & Hfr).
  rewrite Hall. eexists. split; [reflexivity|]. split; [exact Hc|].
  assert (Hne : self a ∉ [self m]) by (apply not_elem_of_self; lia).
  split; [|split].
  - rewrite getLast_of_fields.
    pose proof (emission_fails_fields r a bad message [self m] km x wa
                  Hkm Hne) as Hf.
    unfold exec in Hf. rewrite Hf, track_of_last. reflexivity.
  - rewrite getLast_of_fields, emission_of_run.
    pose proof (emission_fails_fields r m bad message [] _ x
                  (set_fields a (track_of r a (fields_of wa a) x) wa)
                  (fails_on_failing_on bad message) (not_elem_of_nil _))
      as Hf.
    unfold exec in Hf. fold km in Hf. rewrite Hf, track_of_last. reflexivity.
  - intros b Hba Hb. apply fields_of_agree, Hfr.
    intros [Heq|Hin]%elem_of_cons; [done|].
    apply list_elem_of_singleton in Hin. lia.
Qed.

Lemma throwing_listener_stops_merge_example :
  exists m w0 w2,
    Beta.merge [numbers; letters] two_streams = (Returned m, w0) /\
    Beta.subscribe m (failing_on is_two "two") w0 = (Thrown "two", w2) /\
    calls w2 = [VNum 1] /\
    Beta.getLast numbers w2 = (Returned (VNum 2), w2) /\
    Beta.getLast letters w2 = (Returned VUndefined, w2).
Proof.
  destruct (throwing_listener_stops_merge BetaTs is_two "two" numbers
              [letters] [VNum 1] (VNum 2) [] two_streams)
    as (m & w0 & Hnew & Hsub).
  - intros next w. reflexivity.
  - repeat constructor.
  - reflexivity.
  - vm_compute. lia.
  - destruct (Hsub w0) as (w2 & Hrun & Hc & Hlast & _ & Hkeep).
    change (Beta.merge [numbers; letters] two_streams = (Returned m, w0))
      in Hnew.
    assert (Hw0 : w0 = exec (Beta.merge [numbers; letters]) two_streams)
      by (unfold exec; rewrite Hnew; reflexivity).
    exists m, w0, w2. split; [exact Hnew|]. split; [exact Hrun|].
    split; [rewrite Hc, Hw0; reflexivity|]. split; [exact Hlast|].
    unfold Beta.getLast, read_last. rewrite (Hkeep letters).
    + rewrite Hw0. reflexivity.
    + discriminate.
    + vm_compute. lia.
Defined.

(** ** The merged stream's own fields *)

Lemma merge_returns_fresh (r : Revision) (streams : list JAStream)
    (w : World) :
  exists m w0,
    merge_of r streams w = (Returned m, w0) /\
    self m = next_object w /\
    fields_of w0 m = fresh_fields /\
    forall next w1,
      generator m next w1
      = forEach streams (fun stream => subscribe_of r stream next) w1.
Proof.
  destruct r; eexists _, _; (split; [reflexivity|]); simpl;
    (split; [reflexivity|]); (split; [|reflexivity]);
    unfold fields_of; simpl; by rewrite lookup_insert_eq.
Qed.

(** An input [s] delivering [xs] to the callback of another stream [m]:
    the fields of [m] follow [xs] too. *)
Lemma nested_emission_fields (r : Revision) (s m : JAStream)
    (ids : list nat) (k : Listener) (xs : list Value) :
  touches ids k -> self m ∉ ids -> self s ≠ self m ->
  forall w,
    fields_of (exec (forEach xs (emission_of r s (emission_of r m k))) w) m
    = fold_left (track_of r m) xs (fields_of w m).
Proof.
  intros Hk Hm Hsm. induction xs as [|x xs IH]; intros w; [reflexivity|].
  cbn [forEach fold_left]. unfold exec in *. unfold bind.
  rewrite emission_of_run.
  set (w0 := set_fields s _ w).
  pose proof (emission_fields r m ids k x w0 Hk Hm) as Hone.
  destruct (touches_emission r m ids k Hk x w0) as (w1 & Hrun & _).
  unfold exec in Hone. rewrite Hrun in *. cbn [snd] in Hone.
  rewrite IH, Hone. f_equal. f_equal.
  apply fields_of_agree, objects_set_fields_ne. congruence.
Qed.

Lemma merge_loop_own_fields (r : Revision) (m : JAStream) (ids : list nat)
    (k : Listener) (streams : list JAStream) (xss : list (list Value)) :
  touches ids k -> self m ∉ ids ->
  Forall (fun s => self s ≠ self m) streams ->
  Forall2 (fun s xs => emits (generator s) xs) streams xss ->
  forall w,
    fields_of
      (exec (forEach streams
               (fun stream => subscribe_of r stream (emission_of r m k))) w) m
    = fold_left (track_of r m) (concat xss) (fields_of w m).
Proof.
  intros Hk Hm Hne Hall. induction Hall as [|s xs streams xss Hxs Hall IH];
    intros w; [reflexivity|].
  apply Forall_cons in Hne as [Hs Hne].
  cbn [forEach concat]. unfold exec in *. unfold bind.
  rewrite subscribe_of_unfold, Hxs.
  pose proof (nested_emission_fields r s m ids k xs Hk Hm Hs w) as Hone.
  destruct (forEach_touches (self s :: self m :: ids)
              (emission_of r s (emission_of r m k)) xs
              (touches_emission r s _ _ (touches_emission r m ids k Hk)) w)
    as (w1 & Hrun & _).
  unfold exec in Hone. rewrite Hrun in *. cbn [snd] in Hone.
  rewrite (IH Hne), Hone, fold_left_app. reflexivity.
Qed.

(** X13. In each revision, the stream returned by [merge] keeps track of
    everything it passes on: after one [subscribe] over synchronous inputs
    its own [getLast()] returns the last value of the last input that
    emitted anything, and [undefined] when no input emitted. *)
Theorem merged_stream_tracks_all_inputs (r : Revision)
    (streams : list JAStream) (xss : list (list Value)) (w : World) :
  Forall2 (fun s xs => emits (generator s) xs) streams xss ->
  Forall (fun s => (self s < next_object w)%nat) streams ->
  exists m w0 w1,
    merge_of r streams w = (Returned m, w0) /\
    getLast_of r m w0 = (Returned VUndefined, w0) /\
    subscribe_of r m mockListener w0 = (Returned tt, w1) /\
    getLast_of r m w1 = (Returned (final (concat xss)), w1).
Proof.
  intros Hall Hold.
  destruct (merge_returns_fresh r streams w)
    as (m & w0 & Hnew & Hm & Hfresh & Hgen).
  pose proof (merge_loop_own_fields r m [] mockListener streams xss
                touches_mockListener (not_elem_of_nil _)) as Hown.
  destruct (merge_loop r [self m] (emission_of r m mockListener) streams xss
              (touches_emission r m [] _ touches_mockListener) Hall w0)
    as (w1 & Hrun & _).
  exists m, w0, w1. split; [exact Hnew|].
  rewrite !getLast_of_fields, Hfresh. split; [reflexivity|].
  rewrite subscribe_of_unfold, Hgen. split; [exact Hrun|].
  specialize (Hown ltac:(eapply Forall_impl; [exact Hold|];
                         simpl; intros; lia) Hall w0).
  unfold exec in Hown. rewrite Hrun in Hown. cbn [snd] in Hown.
  rewrite Hown, Hfresh. by rewrite final_fold_track.
Qed.

Lemma merged_stream_tracks_all_inputs_example :
  exists m w0 w1,
    Beta.merge [numbers; letters] two_streams = (Returned m, w0) /\
    Beta.getLast m w0 = (Returned VUndefined, w0) /\
    Beta.subscribe m mockListener w0 = (Returned tt, w1) /\
    Beta.getLast m w1 = (Returned (VStr "b"), w1).
Proof.
  apply (merged_stream_tracks_all_inputs BetaTs [numbers; letters]
           [nums [1; 2]; [VStr "a"; VStr "b"]] two_streams).
  - constructor; [intros next w; reflexivity|].
    constructor; [intros next w; reflexivity|]. constructor.
  - repeat constructor; vm_compute; lia.
Defined.

(** ** [withLatestFrom] after the primary has been subscribed *)

(** One subscription to a stream whose producer is the one of
    [withLatestFrom], for two different stream objects. *)
Lemma withLatestFrom_run (r : Revision) (this other c : JAStream)
    (xs ys : list Value) :
  emits (generator this) xs -> emits (generator other) ys ->
  self this ≠ self other -> self this ≠ self c ->
  (forall next w1,
     generator c next w1
     = (latest <- new_cell VUndefined ;;
        subscribe_of r other (fun x => write_cell latest x) ;;;
        generator this (fun y =>
          l <- read_last this ;;
          o <- read_cell latest ;;
          next (VArr [l; o]))) w1) ->
  forall w1, exists w2,
    subscribe_of r c mockListener w1 = (Returned tt, w2) /\
    calls w2
    = calls w1
      ++ List.map (fun _ => VArr [last (fields_of w1 this); final ys]) xs.
Proof.
  intros Hxs Hys Hne Hc Hgen w1.
  rewrite subscribe_of_unfold, Hgen.
  unfold bind at 1, new_cell at 1.
  set (latest := next_cell w1).
  set (w1a := mkWorld _ _ _ _ _).
  unfold bind at 1. rewrite subscribe_of_unfold, Hys.
  destruct (latest_loop r other latest ys VUndefined w1a)
    as (wmid & Hrun1 & Hcalls1 & Hcell & _ & _ & Hfr1).
  { apply lookup_insert_eq. }
  rewrite Hrun1, Hxs.
  destruct (pair_loop [self c] (emission_of r c mockListener) this latest xs
              (touches_emission r c [] _ touches_mockListener)) with (w := wmid)
    as (w2 & Hrun2 & Hcalls2 & _).
  { by intros Hin%list_elem_of_singleton. }
  exists w2. split; [exact Hrun2|].
  rewrite Hcalls2, Hcalls1, Hcell.
  by rewrite (fields_of_agree this w1a wmid (Hfr1 _ Hne)).
Qed.

(** X14. In the revisions that have it, [withLatestFrom] pairs the [last]
    field of the primary, not the value being emitted: once the primary
    has been subscribed itself, a subscription to
    [this.withLatestFrom(otherStream)] records, for each primary emission,
    the same pair of the final value of the primary and the final value of
    [otherStream]. *)
Theorem withLatestFrom_pairs_final_of_subscribed_primary (r : Revision)
    (this other : JAStream) (xs ys : list Value) (w : World) :
  r ≠ OptionsTs ->
  emits (generator this) xs -> emits (generator other) ys ->
  (self this < next_object w)%nat -> self this ≠ self other ->
  xs ≠ [] ->
  exists c w0,
    withLatestFrom_of r this other w = (Returned c, w0) /\
    forall w1, exists w2 w3,
      subscribe_of r this mockListener w1 = (Returned tt, w2) /\
      subscribe_of r c mockListener w2 = (Returned tt, w3) /\
      calls w3
      = calls w1 ++ xs
        ++ List.map (fun _ => VArr [final xs; final ys]) xs.
Proof.
  intros Hr Hxs Hys Hthis Hne Hxne.
  destruct (withLatestFrom_returns r this other w Hr)
    as (c & w0 & Hnew & Hc & Hgen).
  exists c, w0. split; [exact Hnew|]. intros w1.
  destruct (subscribe_emits_fields r this xs Hxs w1)
    as (w2 & Hrun & Hcalls & Hf & _).
  destruct (withLatestFrom_run r this other c xs ys Hxs Hys Hne
              ltac:(lia) Hgen w2) as (w3 & Hrun3 & Hcalls3).
  exists w2, w3. split; [exact Hrun|]. split; [exact Hrun3|].
  rewrite Hcalls3, Hcalls, Hf, fold_track_last by done.
  by rewrite <- app_assoc.
Qed.

Lemma withLatestFrom_pairs_final_of_subscribed_primary_example :
  exists c w0 w2 w3,
    Beta.withLatestFrom numbers letters two_streams = (Returned c, w0) /\
    Beta.subscribe numbers mockListener w0 = (Returned tt, w2) /\
    Beta.subscribe c mockListener w2 = (Returned tt, w3) /\
    calls w3 = [VNum 1; VNum 2;
                VArr [VNum 2; VStr "b"]; VArr [VNum 2; VStr "b"]].
Proof.
  destruct (withLatestFrom_pairs_final_of_subscribed_primary BetaTs numbers
              letters (nums [1; 2]) [VStr "a"; VStr "b"] two_streams)
    as (c & w0 & Hnew & Hsub).
  - discriminate.
  - intros next w. reflexivity.
  - intros next w. reflexivity.
  - vm_compute. lia.
  - discriminate.
  - discriminate.
  - destruct (Hsub w0) as (w2 & w3 & Hrun & Hrun3 & Hcalls).
    change (Beta.withLatestFrom numbers letters two_streams
            = (Returned c, w0)) in Hnew.
    assert (Hw0 : calls w0 = []) by (inversion Hnew; reflexivity).
    exists c, w0, w2, w3. split; [exact Hnew|]. split; [exact Hrun|].
    split; [exact Hrun3|]. rewrite Hcalls, Hw0. reflexivity.
Defined.
